(** * ShaderProgram.ts: shader programs and the program executor

    A shallow embedding of [core/frontend/src/render/webgl/ShaderProgram.ts]:
    the binding descriptors ([Uniform], [ProgramUniform], [GraphicUniform],
    [Attribute]), the [ShaderProgram] compile state machine and the
    [ShaderProgramExecutor] that arbitrates the device's active program.

    Methods are computations in a small state-and-exception monad.  An
    exception keeps the mutations made before it, as in JavaScript.  The
    WebGL context is a record holding the chronological list of the calls
    it received and its current-program slot; what the driver answers is an
    oracle over that history. *)

From Stdlib Require Import String Ascii List Bool Arith Lia.
From stdpp Require Import base option gmap.
Import ListNotations.

Set Implicit Arguments.
Set Default Proof Using "Type".

(* ------------------------------------------------------------------ *)
(** ** Completions and the execution monad *)

(** How a method call ends: it returns a value or throws. *)
Inductive Completion (A : Type) : Type :=
| Normal (a : A)
| Throw (msg : string).
Arguments Normal {A} a.
Arguments Throw {A} msg.

Definition Exec (S A : Type) : Type := S -> Completion A * S.

Definition ret {S A : Type} (a : A) : Exec S A := fun s => (Normal a, s).

Definition throw {S A : Type} (msg : string) : Exec S A := fun s => (Throw msg, s).

Definition bind {S A B : Type} (m : Exec S A) (k : A -> Exec S B) : Exec S B :=
  fun s =>
    match m s with
    | (Normal a, s') => k a s'
    | (Throw msg, s') => (Throw msg, s')
    end.

Definition modify {S : Type} (f : S -> S) : Exec S unit := fun s => (Normal tt, f s).

(** Runs a computation over a component [T] of the state [S]. *)
Definition zoom {S T A : Type} (proj : S -> T) (upd : T -> S -> S) (m : Exec T A) : Exec S A :=
  fun s => let '(c, t) := m (proj s) in (c, upd t s).

Declare Scope exec_scope.
Delimit Scope exec_scope with exec.
Notation "x <- m ;; k" := (bind m (fun x => k))
  (at level 100, m at next level, right associativity) : exec_scope.
Notation "m ;; k" := (bind m (fun _ => k))
  (at level 100, right associativity) : exec_scope.
Open Scope exec_scope.

(** [for (const x of xs) body(x);] with a body that cannot leave the loop. *)
Fixpoint forEach {S A : Type} (xs : list A) (body : A -> Exec S unit) : Exec S unit :=
  match xs with
  | [] => ret tt
  | x :: rest => body x ;; forEach rest body
  end.

(* ------------------------------------------------------------------ *)
(** ** JavaScript values that reach a condition *)

(** A method declared [void], or whose body has no [return], evaluates to
    [undefined]; the other methods of this file return booleans. *)
Inductive JsValue : Type :=
| JsUndefined
| JsBoolean (b : bool).

(** ECMAScript ToBoolean, which [if (e)] and [!e] apply to [e]. *)
Definition ToBoolean (v : JsValue) : bool :=
  match v with
  | JsUndefined => false
  | JsBoolean b => b
  end.

(* ------------------------------------------------------------------ *)
(** ** Collaborators: parameters, handles and the WebGL context *)

Definition Target := nat.
Definition RenderPass := nat.
Definition Geometry := nat.
Definition TechniqueId := nat.
Definition TechniqueFlags := nat.

Definition WebGLProgram := nat.
Definition WebGLShader := nat.
Definition UniformHandle := nat.
Definition AttributeHandle := nat.

(** A binding closure is opaque to this file: it is known by an identifier
    and its invocation is recorded in the context's call list. *)
Definition BindProgramUniform := nat.
Definition BindGraphicUniform := nat.
Definition BindAttribute := nat.

(** [GL.ShaderType] *)
Inductive ShaderType : Type := Vertex | Fragment.

Record ShaderProgramParams : Type := {
  target : Target;
  renderPass : RenderPass
}.

(** [DrawParams] extends [ShaderProgramParams] with the primitive. *)
Record DrawParams : Type := {
  asProgramParams : ShaderProgramParams;
  geometry : Geometry
}.

(** What the context is asked to do, in the order it is asked. *)
Inductive GLCall : Type :=
| CreateProgram
| DeleteProgram (p : WebGLProgram)
| CreateShader (ty : ShaderType)
| ShaderSource (sh : WebGLShader) (src : string)
| CompileShader (sh : WebGLShader)
| GetShaderParameter (sh : WebGLShader)
| AttachShader (p : WebGLProgram) (sh : WebGLShader)
| LinkProgram (p : WebGLProgram)
| GetProgramParameter (p : WebGLProgram)
| UseProgram (p : option WebGLProgram)
| GetUniformLocation (p : WebGLProgram) (name : string)
| GetAttribLocation (p : WebGLProgram) (name : string)
| CallBindProgramUniform (f : BindProgramUniform) (h : UniformHandle) (params : ShaderProgramParams)
| CallBindGraphicUniform (f : BindGraphicUniform) (h : UniformHandle) (params : DrawParams)
| CallBindAttribute (f : BindAttribute) (h : AttributeHandle) (params : DrawParams).

Record WebGLRenderingContext : Type := {
  calls : list GLCall;
  currentProgram : option WebGLProgram
}.

(** The answers of the driver, each a function of the calls made so far. *)
Record Driver : Type := {
  createProgramResult : list GLCall -> option WebGLProgram;
  createShaderResult : list GLCall -> ShaderType -> option WebGLShader;
  compileStatusResult : list GLCall -> WebGLShader -> bool;
  linkStatusResult : list GLCall -> WebGLProgram -> bool;
  uniformLocationResult : list GLCall -> WebGLProgram -> string -> option UniformHandle;
  attribLocationResult : list GLCall -> WebGLProgram -> string -> option AttributeHandle
}.

Definition logCall (c : GLCall) (gl : WebGLRenderingContext) : WebGLRenderingContext :=
  {| calls := calls gl ++ [c]; currentProgram := currentProgram gl |}.

Definition is_activation (c : GLCall) : bool :=
  match c with UseProgram _ => true | _ => false end.

Definition is_bind (c : GLCall) : bool :=
  match c with
  | CallBindProgramUniform _ _ _ | CallBindGraphicUniform _ _ _ | CallBindAttribute _ _ _ => true
  | _ => false
  end.

Definition is_compile_or_link (c : GLCall) : bool :=
  match c with
  | CreateShader _ | ShaderSource _ _ | CompileShader _ | GetShaderParameter _
  | AttachShader _ _ | LinkProgram _ | GetProgramParameter _ => true
  | _ => false
  end.

(* ------------------------------------------------------------------ *)
(** ** Binding descriptors *)

(** [Uniform]: the base class of both kinds of uniform. *)
Record Uniform : Type := {
  u_name : string;
  u_handle : option UniformHandle
}.

(** [ProgramUniform extends Uniform] *)
Record ProgramUniform : Type := {
  pu_uniform : Uniform;
  pu_bind : BindProgramUniform
}.

(** [GraphicUniform extends Uniform] *)
Record GraphicUniform : Type := {
  gu_uniform : Uniform;
  gu_bind : BindGraphicUniform
}.

Record Attribute : Type := {
  at_name : string;
  at_handle : option AttributeHandle;
  at_bind : BindAttribute
}.

(** [CompileStatus] *)
Inductive CompileStatus : Type := Success | Failure | Uncompiled.

Record ShaderProgram : Type := {
  _description : string;
  vertSource : string;
  fragSource : string;
  _glProgram : option WebGLProgram;
  _inUse : bool;
  _status : CompileStatus;
  _programUniforms : list ProgramUniform;
  _graphicUniforms : list GraphicUniform;
  _attributes : list Attribute
}.

Definition set_glProgram (v : option WebGLProgram) (p : ShaderProgram) : ShaderProgram :=
  {| _description := _description p; vertSource := vertSource p; fragSource := fragSource p;
     _glProgram := v; _inUse := _inUse p; _status := _status p;
     _programUniforms := _programUniforms p; _graphicUniforms := _graphicUniforms p;
     _attributes := _attributes p |}.

Definition set_inUse (v : bool) (p : ShaderProgram) : ShaderProgram :=
  {| _description := _description p; vertSource := vertSource p; fragSource := fragSource p;
     _glProgram := _glProgram p; _inUse := v; _status := _status p;
     _programUniforms := _programUniforms p; _graphicUniforms := _graphicUniforms p;
     _attributes := _attributes p |}.

Definition set_status (v : CompileStatus) (p : ShaderProgram) : ShaderProgram :=
  {| _description := _description p; vertSource := vertSource p; fragSource := fragSource p;
     _glProgram := _glProgram p; _inUse := _inUse p; _status := v;
     _programUniforms := _programUniforms p; _graphicUniforms := _graphicUniforms p;
     _attributes := _attributes p |}.

Definition set_programUniforms (v : list ProgramUniform) (p : ShaderProgram) : ShaderProgram :=
  {| _description := _description p; vertSource := vertSource p; fragSource := fragSource p;
     _glProgram := _glProgram p; _inUse := _inUse p; _status := _status p;
     _programUniforms := v; _graphicUniforms := _graphicUniforms p;
     _attributes := _attributes p |}.

Definition set_graphicUniforms (v : list GraphicUniform) (p : ShaderProgram) : ShaderProgram :=
  {| _description := _description p; vertSource := vertSource p; fragSource := fragSource p;
     _glProgram := _glProgram p; _inUse := _inUse p; _status := _status p;
     _programUniforms := _programUniforms p; _graphicUniforms := v;
     _attributes := _attributes p |}.

Definition set_attributes (v : list Attribute) (p : ShaderProgram) : ShaderProgram :=
  {| _description := _description p; vertSource := vertSource p; fragSource := fragSource p;
     _glProgram := _glProgram p; _inUse := _inUse p; _status := _status p;
     _programUniforms := _programUniforms p; _graphicUniforms := _graphicUniforms p;
     _attributes := v |}.

(** The objects the executor refers to live in a store; a reference is
    compared by identity ([===]). *)
Definition ProgramRef := nat.

Record World : Type := {
  heap : gmap ProgramRef ShaderProgram;
  context : WebGLRenderingContext
}.

Record ShaderProgramExecutor : Type := {
  _program : option ProgramRef;
  _params : ShaderProgramParams
}.

Definition set_program (v : option ProgramRef) (e : ShaderProgramExecutor) : ShaderProgramExecutor :=
  {| _program := v; _params := _params e |}.

(** State of a method of a descriptor, of a program, of the executor. *)
Definition UState : Type := Uniform * WebGLRenderingContext.
Definition AState : Type := Attribute * WebGLRenderingContext.
Definition PState : Type := ShaderProgram * WebGLRenderingContext.
Definition EState : Type := ShaderProgramExecutor * World.

Section Embedding.

(** The build: debug, where a violated assertion is fatal, or production,
    where it is not. *)
Variable assertionsEnabled : bool.

(** The driver behind the one rendering context of the process. *)
Variable driver : Driver.

(** Modelled from the spec: the Technique registry of the render target
    ([Target.techniques.getTechnique], [Technique.getShader]) and
    [TechniqueFlags.defaults], deterministic and referentially stable. *)
Variable getTechniqueId : Geometry -> Target -> TechniqueId.
Variable getShader : Target -> TechniqueId -> TechniqueFlags -> ProgramRef.
Variable TechniqueFlags_defaults : TechniqueFlags.

(** Modelled from the spec: [assert] of [@bentley/bentleyjs-core], a
    package outside this file.  A violated assertion throws in a debug
    build and does nothing in a production build. *)
Definition assert {S : Type} (condition : bool) : Exec S unit :=
  if assertionsEnabled && negb condition then throw "Assert: Programmer Error" else ret tt.

(* ------------------------------------------------------------------ *)
(** ** The WebGL calls the file makes *)

Definition GL (A : Type) : Type := Exec WebGLRenderingContext A.

Definition gl_createProgram : GL (option WebGLProgram) :=
  fun gl => (Normal (createProgramResult driver (calls gl)), logCall CreateProgram gl).

Definition gl_deleteProgram (p : WebGLProgram) : GL unit :=
  modify (logCall (DeleteProgram p)).

Definition gl_createShader (ty : ShaderType) : GL (option WebGLShader) :=
  fun gl => (Normal (createShaderResult driver (calls gl) ty), logCall (CreateShader ty) gl).

Definition gl_shaderSource (sh : WebGLShader) (src : string) : GL unit :=
  modify (logCall (ShaderSource sh src)).

Definition gl_compileShader (sh : WebGLShader) : GL unit :=
  modify (logCall (CompileShader sh)).

Definition gl_getShaderParameter (sh : WebGLShader) : GL bool :=
  fun gl => (Normal (compileStatusResult driver (calls gl) sh), logCall (GetShaderParameter sh) gl).

Definition gl_attachShader (p : WebGLProgram) (sh : WebGLShader) : GL unit :=
  modify (logCall (AttachShader p sh)).

Definition gl_linkProgram (p : WebGLProgram) : GL unit :=
  modify (logCall (LinkProgram p)).

Definition gl_getProgramParameter (p : WebGLProgram) : GL bool :=
  fun gl => (Normal (linkStatusResult driver (calls gl) p), logCall (GetProgramParameter p) gl).

(** [useProgram] installs its argument as the context's current program. *)
Definition gl_useProgram (p : option WebGLProgram) : GL unit :=
  modify (fun gl => {| calls := calls gl ++ [UseProgram p]; currentProgram := p |}).

Definition gl_getUniformLocation (p : WebGLProgram) (name : string) : GL (option UniformHandle) :=
  fun gl => (Normal (uniformLocationResult driver (calls gl) p name),
             logCall (GetUniformLocation p name) gl).

Definition gl_getAttribLocation (p : WebGLProgram) (name : string) : GL (option AttributeHandle) :=
  fun gl => (Normal (attribLocationResult driver (calls gl) p name),
             logCall (GetAttribLocation p name) gl).

(** Modelled from the spec: [UniformHandle.create] of [Handle.ts], a
    module outside this file.  The named location is looked up inside the
    program; the handle is absent when the location is not found. *)
Definition UniformHandle_create (p : WebGLProgram) (name : string) : GL (option UniformHandle) :=
  gl_getUniformLocation p name.

(** Modelled from the spec: [AttributeHandle.create] of [Handle.ts], the
    same lookup for an attribute. *)
Definition AttributeHandle_create (p : WebGLProgram) (name : string) : GL (option AttributeHandle) :=
  gl_getAttribLocation p name.

(** The three binding closures: invoking one is an observable call. *)
Definition callBindProgramUniform (f : BindProgramUniform) (h : UniformHandle)
    (params : ShaderProgramParams) : GL unit :=
  modify (logCall (CallBindProgramUniform f h params)).

Definition callBindGraphicUniform (f : BindGraphicUniform) (h : UniformHandle)
    (params : DrawParams) : GL unit :=
  modify (logCall (CallBindGraphicUniform f h params)).

Definition callBindAttribute (f : BindAttribute) (h : AttributeHandle)
    (params : DrawParams) : GL unit :=
  modify (logCall (CallBindAttribute f h params)).

(* ------------------------------------------------------------------ *)
(** ** Uniform, ProgramUniform, GraphicUniform, Attribute *)

Definition onContext {T A : Type} (m : GL A) : Exec (T * WebGLRenderingContext) A :=
  zoom snd (fun gl s => (fst s, gl)) m.

Definition this {T C : Type} : Exec (T * C) T :=
  fun s => (Normal (fst s), s).

Definition update {T C : Type} (f : T -> T) : Exec (T * C) unit :=
  modify (fun s => (f (fst s), snd s)).

(** [Uniform.isValid] *)
Definition Uniform_isValid (u : Uniform) : bool :=
  match u_handle u with Some _ => true | None => false end.

(** [Uniform.compile(gl, prog)] *)
Definition Uniform_compile (prog : ShaderProgram) : Exec UState bool :=
  u <- this ;;
  assert (negb (Uniform_isValid u)) ;;
  match _glProgram prog with
  | Some glProgram =>
      h <- onContext (UniformHandle_create glProgram (u_name u)) ;;
      update (fun u => {| u_name := u_name u; u_handle := h |})
  | None => ret tt
  end ;;
  u <- this ;;
  ret (Uniform_isValid u).

(** [ProgramUniform.bind(params)]: declared [void], it evaluates to
    [undefined] on both paths. *)
Definition ProgramUniform_bind (u : ProgramUniform) (params : ShaderProgramParams) : GL JsValue :=
  match u_handle (pu_uniform u) with
  | Some h => callBindProgramUniform (pu_bind u) h params
  | None => ret tt
  end ;;
  ret JsUndefined.

(** [GraphicUniform.bind(params)] *)
Definition GraphicUniform_bind (u : GraphicUniform) (params : DrawParams) : GL unit :=
  match u_handle (gu_uniform u) with
  | Some h => callBindGraphicUniform (gu_bind u) h params
  | None => ret tt
  end.

(** [Attribute.isValid] *)
Definition Attribute_isValid (a : Attribute) : bool :=
  match at_handle a with Some _ => true | None => false end.

(** [Attribute.compile(gl, prog)] *)
Definition Attribute_compile (prog : ShaderProgram) : Exec AState bool :=
  a <- this ;;
  assert (negb (Attribute_isValid a)) ;;
  match _glProgram prog with
  | Some glProgram =>
      h <- onContext (AttributeHandle_create glProgram (at_name a)) ;;
      update (fun a => {| at_name := at_name a; at_handle := h; at_bind := at_bind a |})
  | None => ret tt
  end ;;
  a <- this ;;
  ret (Attribute_isValid a).

(** [Attribute.bind(params)] *)
Definition Attribute_bind (a : Attribute) (params : DrawParams) : GL unit :=
  match at_handle a with
  | Some h => callBindAttribute (at_bind a) h params
  | None => ret tt
  end.

(* ------------------------------------------------------------------ *)
(** ** ShaderProgram *)

(** [new ShaderProgram(vertSource, fragSource, description, gl)] *)
Definition ShaderProgram_new (vert frag description : string) : GL ShaderProgram :=
  glProgram <- gl_createProgram ;;
  assert true ;;
  ret {| _description := description; vertSource := vert; fragSource := frag;
         _glProgram := glProgram; _inUse := false; _status := Uncompiled;
         _programUniforms := []; _graphicUniforms := []; _attributes := [] |}.

(** [ShaderProgram.dispose(gl)] *)
Definition ShaderProgram_dispose : Exec PState unit :=
  p <- this ;;
  match _glProgram p with
  | Some glProgram =>
      assert (negb (_inUse p)) ;;
      onContext (gl_deleteProgram glProgram) ;;
      update (set_glProgram None) ;;
      update (set_status Uncompiled)
  | None => ret tt
  end.

(** [ShaderProgram.isValid] *)
Definition ShaderProgram_isValid (p : ShaderProgram) : bool :=
  match _glProgram p with Some _ => true | None => false end.

(** [ShaderProgram.isUncompiled] *)
Definition ShaderProgram_isUncompiled (p : ShaderProgram) : bool :=
  match _status p with Uncompiled => true | _ => false end.

(** [ShaderProgram.compileShader(gl, type)] *)
Definition ShaderProgram_compileShader (type : ShaderType) : Exec PState (option WebGLShader) :=
  shader <- onContext (gl_createShader type) ;;
  match shader with
  | None => ret None
  | Some shader =>
      p <- this ;;
      let src := match type with Vertex => vertSource p | Fragment => fragSource p end in
      onContext (gl_shaderSource shader src) ;;
      onContext (gl_compileShader shader) ;;
      succeeded <- onContext (gl_getShaderParameter shader) ;;
      assert succeeded ;;
      ret (if succeeded then Some shader else None)
  end.

(** [ShaderProgram.linkProgram(gl, vert, frag)] *)
Definition ShaderProgram_linkProgram (vert frag : WebGLShader) : Exec PState bool :=
  p <- this ;;
  assert (ShaderProgram_isValid p) ;;
  match _glProgram p with
  | None => ret false
  | Some glProgram =>
      onContext (gl_attachShader glProgram vert) ;;
      onContext (gl_attachShader glProgram frag) ;;
      onContext (gl_linkProgram glProgram) ;;
      onContext (gl_getProgramParameter glProgram)
  end.

(** The part of [compile] after the [switch]. *)
Definition ShaderProgram_compile_shaders : Exec PState bool :=
  vert <- ShaderProgram_compileShader Vertex ;;
  frag <- ShaderProgram_compileShader Fragment ;;
  linked <-
    match vert, frag with
    | Some vert, Some frag => ShaderProgram_linkProgram vert frag
    | _, _ => ret false
    end ;;
  if linked
  then update (set_status Success) ;; ret true
  else update (set_status Failure) ;; ret false.

(** [ShaderProgram.compile(gl)] *)
Definition ShaderProgram_compile : Exec PState bool :=
  p <- this ;;
  match _status p with
  | Failure => ret false
  | Success => ret true
  | Uncompiled =>
      if negb (ShaderProgram_isValid p)
      then update (set_status Failure) ;; ret false
      else ShaderProgram_compile_shaders
  end.

(** The loop of [use]: [if (!uniform.bind(params)) return false;] for each
    program uniform, then [return true]. *)
Fixpoint ShaderProgram_use_uniforms (uniforms : list ProgramUniform)
    (params : ShaderProgramParams) : Exec PState bool :=
  match uniforms with
  | [] => ret true
  | uniform :: rest =>
      bound <- onContext (ProgramUniform_bind uniform params) ;;
      if negb (ToBoolean bound) then ret false
      else ShaderProgram_use_uniforms rest params
  end.

(** [ShaderProgram.use(params)] *)
Definition ShaderProgram_use (params : ShaderProgramParams) : Exec PState bool :=
  compiled <- ShaderProgram_compile ;;
  if negb compiled then ret false
  else
    p <- this ;;
    assert (ShaderProgram_isValid p) ;;
    match _glProgram p with
    | None => ret false
    | Some glProgram =>
        assert (negb (_inUse p)) ;;
        update (set_inUse true) ;;
        onContext (gl_useProgram (Some glProgram)) ;;
        p <- this ;;
        ShaderProgram_use_uniforms (_programUniforms p) params
    end.

(** [ShaderProgram.endUse(gl)] *)
Definition ShaderProgram_endUse : Exec PState unit :=
  p <- this ;;
  assert (_inUse p) ;;
  update (set_inUse false) ;;
  onContext (gl_useProgram None).

(** [ShaderProgram.draw(params)] *)
Definition ShaderProgram_draw (params : DrawParams) : Exec PState unit :=
  p <- this ;;
  assert (_inUse p) ;;
  forEach (_graphicUniforms p) (fun uniform => onContext (GraphicUniform_bind uniform params)) ;;
  forEach (_attributes p) (fun attribute => onContext (Attribute_bind attribute params)).

(** [ShaderProgram.addProgramUniform(name, binding)] *)
Definition ShaderProgram_addProgramUniform (name : string) (binding : BindProgramUniform)
    : Exec PState unit :=
  p <- this ;;
  assert (ShaderProgram_isUncompiled p) ;;
  update (fun p => set_programUniforms
    (_programUniforms p ++ [{| pu_uniform := {| u_name := name; u_handle := None |};
                               pu_bind := binding |}]) p).

(** [ShaderProgram.addGraphicUniform(name, binding)] *)
Definition ShaderProgram_addGraphicUniform (name : string) (binding : BindGraphicUniform)
    : Exec PState unit :=
  p <- this ;;
  assert (ShaderProgram_isUncompiled p) ;;
  update (fun p => set_graphicUniforms
    (_graphicUniforms p ++ [{| gu_uniform := {| u_name := name; u_handle := None |};
                               gu_bind := binding |}]) p).

(** [ShaderProgram.addAttribute(name, binding)] *)
Definition ShaderProgram_addAttribute (name : string) (binding : BindAttribute)
    : Exec PState unit :=
  p <- this ;;
  assert (ShaderProgram_isUncompiled p) ;;
  update (fun p => set_attributes
    (_attributes p ++ [{| at_name := name; at_handle := None; at_bind := binding |}]) p).

(* ------------------------------------------------------------------ *)
(** ** ShaderProgramExecutor *)

(** A method call on the program object behind a reference: the object is
    read from the store, the method runs on it and on the context, and the
    object is written back, also when the method throws. *)
Definition onProgram {A : Type} (r : ProgramRef) (m : Exec PState A) : Exec EState A :=
  fun s =>
    let '(e, w) := s in
    match heap w !! r with
    | Some p =>
        let '(c, (p', gl')) := m (p, context w) in
        (c, (e, {| heap := <[r := p']> (heap w); context := gl' |}))
    | None => (Throw "TypeError: not an object", s)
    end.

Definition set_this_program (v : option ProgramRef) : Exec EState unit :=
  update (set_program v).

(** [ShaderProgramExecutor.changeProgram(program?)] *)
Definition ShaderProgramExecutor_changeProgram (program : option ProgramRef) : Exec EState bool :=
  e <- this ;;
  if decide (_program e = program) then ret true
  else
    match _program e with
    | Some current => onProgram current ShaderProgram_endUse
    | None => ret tt
    end ;;
    set_this_program program ;;
    match program with
    | Some r =>
        e <- this ;;
        used <- onProgram r (ShaderProgram_use (_params e)) ;;
        if negb used then set_this_program None ;; ret false
        else ret true
    | None => ret true
    end.

(** [new ShaderProgramExecutor(target, pass, program?)]: the fields are
    set, then [changeProgram(program)] runs on the new object. *)
Definition ShaderProgramExecutor_new (target : Target) (pass : RenderPass)
    (program : option ProgramRef) (w : World) : Completion bool * EState :=
  ShaderProgramExecutor_changeProgram program
    ({| _program := None; _params := {| target := target; renderPass := pass |} |}, w).

(** [ShaderProgramExecutor.dispose()] *)
Definition ShaderProgramExecutor_dispose : Exec EState unit :=
  ShaderProgramExecutor_changeProgram None ;; ret tt.

(** [ShaderProgramExecutor.setProgram(program)]: the body has no [return],
    the call evaluates to [undefined]. *)
Definition ShaderProgramExecutor_setProgram (program : ProgramRef) : Exec EState JsValue :=
  ShaderProgramExecutor_changeProgram (Some program) ;; ret JsUndefined.

(** [ShaderProgramExecutor.isValid] *)
Definition ShaderProgramExecutor_isValid (e : ShaderProgramExecutor) : bool :=
  match _program e with Some _ => true | None => false end.

(** [ShaderProgramExecutor.draw(params)] *)
Definition ShaderProgramExecutor_draw (params : DrawParams) : Exec EState unit :=
  e <- this ;;
  assert (ShaderProgramExecutor_isValid e) ;;
  match _program e with
  | Some r => onProgram r (ShaderProgram_draw params)
  | None => ret tt
  end.

(** [ShaderProgramExecutor.drawInterrupt(params)] *)
Definition ShaderProgramExecutor_drawInterrupt (params : DrawParams) : Exec EState unit :=
  e <- this ;;
  assert (Nat.eqb (target (asProgramParams params)) (target (_params e))) ;;
  let tech := getTechniqueId (geometry params) (target (asProgramParams params)) in
  let program := getShader (target (asProgramParams params)) tech TechniqueFlags_defaults in
  switched <- ShaderProgramExecutor_setProgram program ;;
  if ToBoolean switched then ShaderProgramExecutor_draw params
  else ret tt.

(** The public methods of a program, as a caller invokes them. *)
Inductive ProgramCall : Type :=
| CallCompile
| CallUse (params : ShaderProgramParams)
| CallEndUse
| CallProgramDraw (params : DrawParams)
| CallAddProgramUniform (name : string) (binding : BindProgramUniform)
| CallAddGraphicUniform (name : string) (binding : BindGraphicUniform)
| CallAddAttribute (name : string) (binding : BindAttribute)
| CallProgramDispose.

Definition invoke (c : ProgramCall) : Exec PState unit :=
  match c with
  | CallCompile => ShaderProgram_compile ;; ret tt
  | CallUse params => ShaderProgram_use params ;; ret tt
  | CallEndUse => ShaderProgram_endUse
  | CallProgramDraw params => ShaderProgram_draw params
  | CallAddProgramUniform name binding => ShaderProgram_addProgramUniform name binding
  | CallAddGraphicUniform name binding => ShaderProgram_addGraphicUniform name binding
  | CallAddAttribute name binding => ShaderProgram_addAttribute name binding
  | CallProgramDispose => ShaderProgram_dispose
  end.

(** The program objects that exist: what the constructor returns, and
    what a method call, returning or throwing, leaves of such an object,
    whatever the context has been through in between. *)
Inductive reachable : ShaderProgram -> Prop :=
| reachable_new (vert frag description : string) (gl gl' : WebGLRenderingContext)
    (p : ShaderProgram) :
    ShaderProgram_new vert frag description gl = (Normal p, gl') -> reachable p
| reachable_invoke (c : ProgramCall) (p : ShaderProgram) (gl : WebGLRenderingContext) :
    reachable p -> reachable (fst (snd (invoke c (p, gl)))).

(** The operations a caller performs on an executor between its
    construction and its disposal. *)
Inductive ExecutorCall : Type :=
| CallSetProgram (program : ProgramRef)
| CallDraw (params : DrawParams)
| CallDrawInterrupt (params : DrawParams).

Definition runCall (c : ExecutorCall) : Exec EState unit :=
  match c with
  | CallSetProgram program => ShaderProgramExecutor_setProgram program ;; ret tt
  | CallDraw params => ShaderProgramExecutor_draw params
  | CallDrawInterrupt params => ShaderProgramExecutor_drawInterrupt params
  end.

(** A sequence of operations; an exception ends it. *)
Definition runCalls (cs : list ExecutorCall) : Exec EState unit :=
  forEach cs runCall.

End Embedding.

(** At most one program of the store reports itself in use. *)
Definition atMostOneInUse (w : World) : Prop :=
  forall (r1 r2 : ProgramRef) (p1 p2 : ShaderProgram),
    heap w !! r1 = Some p1 -> heap w !! r2 = Some p2 ->
    _inUse p1 = true -> _inUse p2 = true -> r1 = r2.

(** The in-use flag of the program behind a reference. *)
Definition inUseAt (w : World) (r : ProgramRef) : option bool :=
  _inUse <$> heap w !! r.

(* ------------------------------------------------------------------ *)
(** ** Concrete drivers, programs and stores *)

Definition freshContext : WebGLRenderingContext :=
  {| calls := []; currentProgram := None |}.

(** A driver that accepts everything; an object it creates is numbered by
    the number of calls the context had received. *)
Definition acceptingDriver : Driver :=
  {| createProgramResult := fun h => Some (length h);
     createShaderResult := fun h _ => Some (length h);
     compileStatusResult := fun _ _ => true;
     linkStatusResult := fun _ _ => true;
     uniformLocationResult := fun h _ _ => Some (length h);
     attribLocationResult := fun h _ _ => Some (length h) |}.

(** The source text last given to a shader. *)
Fixpoint sourceOf (h : list GLCall) (sh : WebGLShader) : option string :=
  match h with
  | [] => None
  | c :: rest =>
      match sourceOf rest sh with
      | Some src => Some src
      | None =>
          match c with
          | ShaderSource sh' src => if Nat.eqb sh sh' then Some src else None
          | _ => None
          end
      end
  end.

(** A driver that rejects the shader source ["#error"]. *)
Definition strictDriver : Driver :=
  {| createProgramResult := fun h => Some (length h);
     createShaderResult := fun h _ => Some (length h);
     compileStatusResult := fun h sh =>
       match sourceOf h sh with
       | Some src => negb (String.eqb src "#error")
       | None => false
       end;
     linkStatusResult := fun _ _ => true;
     uniformLocationResult := fun h _ _ => Some (length h);
     attribLocationResult := fun h _ _ => Some (length h) |}.

(** A driver that cannot create a program object. *)
Definition exhaustedDriver : Driver :=
  {| createProgramResult := fun _ => None;
     createShaderResult := fun h _ => Some (length h);
     compileStatusResult := fun _ _ => true;
     linkStatusResult := fun _ _ => true;
     uniformLocationResult := fun h _ _ => Some (length h);
     attribLocationResult := fun h _ _ => Some (length h) |}.

(** [new ShaderProgram(...)] followed by the registrations [config]. *)
Definition configured (assertionsEnabled : bool) (driver : Driver)
    (vert frag description : string) (config : Exec PState unit)
    : Exec WebGLRenderingContext ShaderProgram :=
  fun gl =>
    match ShaderProgram_new assertionsEnabled driver vert frag description gl with
    | (Normal p, gl1) =>
        match config (p, gl1) with
        | (Normal _, (p', gl2)) => (Normal p', gl2)
        | (Throw msg, (_, gl2)) => (Throw msg, gl2)
        end
    | (Throw msg, gl1) => (Throw msg, gl1)
    end.

(** A lit-surface program: one program uniform, one graphic uniform, one
    attribute, none of them resolved yet. *)
Definition litProgram (glProgram : option WebGLProgram) : ShaderProgram :=
  {| _description := "lit";
     vertSource := "void main() { gl_Position = u_proj * a_pos; }";
     fragSource := "void main() { gl_FragColor = u_color; }";
     _glProgram := glProgram; _inUse := false; _status := Uncompiled;
     _programUniforms := [{| pu_uniform := {| u_name := "u_proj"; u_handle := None |}; pu_bind := 1 |}];
     _graphicUniforms := [{| gu_uniform := {| u_name := "u_color"; u_handle := None |}; gu_bind := 2 |}];
     _attributes := [{| at_name := "a_pos"; at_handle := None; at_bind := 3 |}] |}.

(** An unlit program: no program uniform. *)
Definition unlitProgram (glProgram : option WebGLProgram) : ShaderProgram :=
  {| _description := "unlit";
     vertSource := "void main() { gl_Position = a_pos; }";
     fragSource := "void main() { gl_FragColor = u_color; }";
     _glProgram := glProgram; _inUse := false; _status := Uncompiled;
     _programUniforms := [];
     _graphicUniforms := [{| gu_uniform := {| u_name := "u_color"; u_handle := None |}; gu_bind := 2 |}];
     _attributes := [{| at_name := "a_pos"; at_handle := None; at_bind := 3 |}] |}.

(** A program whose fragment source the strict driver rejects. *)
Definition brokenProgram (glProgram : option WebGLProgram) : ShaderProgram :=
  {| _description := "broken";
     vertSource := "void main() { gl_Position = a_pos; }";
     fragSource := "#error";
     _glProgram := glProgram; _inUse := false; _status := Uncompiled;
     _programUniforms := []; _graphicUniforms := []; _attributes := [] |}.

(** The context after the two programs of [twoPrograms] were created. *)
Definition contextOfTwo : WebGLRenderingContext :=
  {| calls := [CreateProgram; CreateProgram]; currentProgram := None |}.

(** A store with the lit program behind reference 1 and the unlit program
    behind reference 2, as their constructors leave them. *)
Definition twoPrograms : World :=
  {| heap := <[1 := litProgram (Some 0)]> (<[2 := unlitProgram (Some 1)]> ∅);
     context := contextOfTwo |}.

Definition passParams : ShaderProgramParams := {| target := 0; renderPass := 0 |}.
Definition primitive : DrawParams := {| asProgramParams := passParams; geometry := 0 |}.

(** The context after one program was created. *)
Definition contextOfOne : WebGLRenderingContext :=
  {| calls := [CreateProgram]; currentProgram := None |}.

(** A linked program whose descriptors carry handles, but for one graphic
    uniform that the linker optimised out. *)
Definition readyProgram (inUse : bool) : ShaderProgram :=
  {| _description := "ready";
     vertSource := "void main() { gl_Position = a_pos; }";
     fragSource := "void main() { gl_FragColor = u_color; }";
     _glProgram := Some 0; _inUse := inUse; _status := Success;
     _programUniforms := [];
     _graphicUniforms :=
       [{| gu_uniform := {| u_name := "u_color"; u_handle := Some 4 |}; gu_bind := 2 |};
        {| gu_uniform := {| u_name := "u_unused"; u_handle := None |}; gu_bind := 5 |}];
     _attributes := [{| at_name := "a_pos"; at_handle := Some 6; at_bind := 3 |}] |}.

(** A store with the ready program, not in use, behind reference 1. *)
Definition oneReady : World :=
  {| heap := <[1 := readyProgram false]> ∅; context := contextOfOne |}.

(** An executor that has no active program. *)
Definition idleExecutor : ShaderProgramExecutor :=
  {| _program := None; _params := passParams |}.

(** A Technique registry in which every technique and flag set resolve to
    the program behind reference 1. *)
Definition singleTechniqueId (g : Geometry) (t : Target) : TechniqueId := 0.
Definition singleShader (t : Target) (id : TechniqueId) (flags : TechniqueFlags) : ProgramRef := 1.

(* ------------------------------------------------------------------ *)
(** ** Sequences of calls *)

(** [n] successive calls of the same method, with the values returned. *)
Fixpoint repeatCall {S A : Type} (n : nat) (m : Exec S A) : Exec S (list A) :=
  match n with
  | 0 => ret []
  | S n' => a <- m ;; rest <- repeatCall n' m ;; ret (a :: rest)
  end.

(** The boolean that [compile] answers from a terminal status. *)
Definition cachedResult (st : CompileStatus) : option bool :=
  match st with
  | Success => Some true
  | Failure => Some false
  | Uncompiled => None
  end.

(** A status [Success] is only ever reached through a link on the device
    program object, and [dispose] resets the status when it releases the
    object: a program without a device object is not [Success]. *)
Definition wellFormed (p : ShaderProgram) : Prop :=
  _status p = Success -> _glProgram p <> None.

(** The context after it received the calls [added]. *)
Definition received (added : list GLCall) (gl : WebGLRenderingContext) : WebGLRenderingContext :=
  {| calls := calls gl ++ added; currentProgram := currentProgram gl |}.

(** The closure invocation that binding one descriptor amounts to: none
    when its handle is not resolved. *)
Definition graphicUniformCalls (params : DrawParams) (u : GraphicUniform) : list GLCall :=
  match u_handle (gu_uniform u) with
  | Some h => [CallBindGraphicUniform (gu_bind u) h params]
  | None => []
  end.

Definition attributeCalls (params : DrawParams) (a : Attribute) : list GLCall :=
  match at_handle a with
  | Some h => [CallBindAttribute (at_bind a) h params]
  | None => []
  end.

(** [m] never leaves the relation [R] between the state it starts from
    and the state it ends in, whether it returns or throws. *)
Definition preserves {S A : Type} (R : S -> S -> Prop) (m : Exec S A) : Prop :=
  forall s, R s (snd (m s)).

(** The context received exactly the calls [added], all of them
    satisfying [P], and its current program did not change. *)
Definition callsAdded (P : GLCall -> bool) (gl gl' : WebGLRenderingContext) : Prop :=
  currentProgram gl' = currentProgram gl /\
  exists added, calls gl' = calls gl ++ added /\ forallb P added = true.

(** What a compilation may do to a program and to the context: only the
    status changes, and the context only receives shader-compile and link
    calls. *)
Definition compileFrame (s s' : PState) : Prop :=
  set_status (_status (fst s)) (fst s') = fst s /\
  callsAdded is_compile_or_link (snd s) (snd s').

(** What the methods other than [compile] and [dispose] leave alone: the
    status and the device program object. *)
Definition statusFrame (s s' : PState) : Prop :=
  _status (fst s') = _status (fst s) /\ _glProgram (fst s') = _glProgram (fst s).

(** Well-formedness is not lost between [s] and [s']. *)
Definition wellFormedStep (s s' : PState) : Prop :=
  wellFormed (fst s) -> wellFormed (fst s').

(** No program of the store has a program uniform. *)
Definition noProgramUniforms (w : World) : Prop :=
  forall (r : ProgramRef) (p : ShaderProgram), heap w !! r = Some p -> _programUniforms p = [].

(** No program of the store is in use and the context has no current
    program. *)
Definition quiet (w : World) : Prop :=
  (forall (r : ProgramRef) (p : ShaderProgram), heap w !! r = Some p -> _inUse p = false) /\
  currentProgram (context w) = None.

(** The executor mirrors the device: a program in use is the one the
    executor holds, and when it holds none the context has no current
    program. *)
Definition mirrored (s : EState) : Prop :=
  (forall (r : ProgramRef) (p : ShaderProgram),
     heap (snd s) !! r = Some p -> _inUse p = true -> _program (fst s) = Some r) /\
  (_program (fst s) = None -> currentProgram (context (snd s)) = None).

(** The executor's invariant, on stores without program uniforms, is not
    lost between [s] and [s']. *)
Definition mirroredStep (s s' : EState) : Prop :=
  mirrored s /\ noProgramUniforms (snd s) -> mirrored s' /\ noProgramUniforms (snd s').

(* ------------------------------------------------------------------ *)
(** ** Further drivers, programs and stores *)

(** A program whose vertex source the strict driver rejects. *)
Definition brokenVertexProgram (glProgram : option WebGLProgram) : ShaderProgram :=
  {| _description := "broken vertex";
     vertSource := "#error";
     fragSource := "void main() { gl_FragColor = u_color; }";
     _glProgram := glProgram; _inUse := false; _status := Uncompiled;
     _programUniforms := []; _graphicUniforms := []; _attributes := [] |}.

(** A driver that cannot create a vertex shader object. *)
Definition noVertexDriver : Driver :=
  {| createProgramResult := fun h => Some (length h);
     createShaderResult := fun h ty =>
       match ty with Vertex => None | Fragment => Some (length h) end;
     compileStatusResult := fun _ _ => true;
     linkStatusResult := fun _ _ => true;
     uniformLocationResult := fun h _ _ => Some (length h);
     attribLocationResult := fun h _ _ => Some (length h) |}.

(** The context while the ready program is active. *)
Definition contextOfActive : WebGLRenderingContext :=
  {| calls := [CreateProgram; CreateProgram; UseProgram (Some 0)];
     currentProgram := Some 0 |}.

(** A store where the ready program (reference 1) is in use and the unlit
    program (reference 2) is linked and idle. *)
Definition switchStore : World :=
  {| heap := <[1 := readyProgram true]> (<[2 := set_status Success (unlitProgram (Some 1))]> ∅);
     context := contextOfActive |}.

(** The same store with, behind reference 2, a program that failed to
    compile. *)
Definition failedStore : World :=
  {| heap := <[1 := readyProgram true]> (<[2 := set_status Failure (brokenProgram (Some 1))]> ∅);
     context := contextOfActive |}.

(** An executor that holds the program behind reference 1. *)
Definition busyExecutor : ShaderProgramExecutor :=
  {| _program := Some 1; _params := passParams |}.

(** The graphic uniform and the attribute that a registration creates. *)
Definition newGraphicUniform (registration : string * BindGraphicUniform) : GraphicUniform :=
  {| gu_uniform := {| u_name := fst registration; u_handle := None |};
     gu_bind := snd registration |}.

Definition newProgramUniform (registration : string * BindProgramUniform) : ProgramUniform :=
  {| pu_uniform := {| u_name := fst registration; u_handle := None |};
     pu_bind := snd registration |}.

Definition newAttribute (registration : string * BindAttribute) : Attribute :=
  {| at_name := fst registration; at_handle := None; at_bind := snd registration |}.

(** The calls a shader compilation gives the context, up to the status
    query. *)
Definition shaderCalls (ty : ShaderType) (sh : WebGLShader) (src : string) : list GLCall :=
  [CreateShader ty; ShaderSource sh src; CompileShader sh; GetShaderParameter sh].

Definition is_link (c : GLCall) : bool :=
  match c with
  | AttachShader _ _ | LinkProgram _ | GetProgramParameter _ => true
  | _ => false
  end.

(* ------------------------------------------------------------------ *)
(** ** WebAppRpcLogging.ts: the identifiers in a request path *)

(** [String.prototype.split] with a one-character separator: the text of
    an empty string is one empty token. *)
Fixpoint split (sep : ascii) (s : string) : list string :=
  match s with
  | EmptyString => [EmptyString]
  | String c rest =>
      if Ascii.eqb c sep then EmptyString :: split sep rest
      else
        match split sep rest with
        | token :: tokens => String c token :: tokens
        | [] => [String c EmptyString]
        end
  end.

(** Case folding of a regular expression with the [i] flag and an ASCII
    pattern: only the letters A to Z and a to z have a counterpart. *)
Definition foldCase (c : ascii) : ascii :=
  let n := nat_of_ascii c in
  if Nat.leb 65 n && Nat.leb n 90 then ascii_of_nat (n + 32) else c.

Fixpoint foldCases (s : string) : string :=
  match s with
  | EmptyString => EmptyString
  | String c rest => String (foldCase c) (foldCases rest)
  end.

(** [(/^word$/i).test(token)], for a lower-case [word]. *)
Definition testWord (word token : string) : bool :=
  String.eqb (foldCases token) word.

Record PathIds : Type := {
  contextID : string;
  imodelID : string
}.

(** One turn of the loop of [findPathIds], at index [i]. *)
Definition findPathIds_turn (tokens : list string) (ids : PathIds) (i : nat) : PathIds :=
  let token := nth i tokens EmptyString in
  {| contextID :=
       if testWord "context" token then nth (i + 1) tokens EmptyString else contextID ids;
     imodelID :=
       if testWord "imodel" token then nth (i + 1) tokens EmptyString else imodelID ids |}.

(** [WebAppRpcLogging.findPathIds(path)] *)
Definition findPathIds (path : string) : PathIds :=
  let tokens := split "/" path in
  fold_left (findPathIds_turn tokens) (seq 0 (length tokens))
    {| contextID := EmptyString; imodelID := EmptyString |}.

(** A path written from its segments, with ["/"] between them. *)
Fixpoint joinPath (segments : list string) : string :=
  match segments with
  | [] => EmptyString
  | [segment] => segment
  | segment :: rest => (segment ++ String "/" (joinPath rest))%string
  end.

(** The text has no ["/"]. *)
Fixpoint slashFree (s : string) : bool :=
  match s with
  | EmptyString => true
  | String c rest => negb (Ascii.eqb c "/") && slashFree rest
  end.

(** The token is neither of the two words the loop looks for. *)
Definition plainSegment (token : string) : bool :=
  negb (testWord "context" token) && negb (testWord "imodel" token).

(** The loop of [findPathIds] seen from the token it is at: [rest] are
    the tokens still to come. *)
Fixpoint scanTokens (rest : list string) (ids : PathIds) : PathIds :=
  match rest with
  | [] => ids
  | token :: rest' =>
      scanTokens rest'
        {| contextID :=
             if testWord "context" token then hd EmptyString rest' else contextID ids;
           imodelID :=
             if testWord "imodel" token then hd EmptyString rest' else imodelID ids |}
  end.

(* ------------------------------------------------------------------ *)
(** ** Unresolved descriptors, and a store of two programs *)





(** A flat-colour program: no uniform at all, one attribute. *)
Definition flatProgram (glProgram : option WebGLProgram) : ShaderProgram :=
  {| _description := "flat";
     vertSource := "void main() { gl_Position = a_pos; }";
     fragSource := "void main() { gl_FragColor = vec4(1.0); }";
     _glProgram := glProgram; _inUse := false; _status := Uncompiled;
     _programUniforms := [];
     _graphicUniforms := [];
     _attributes := [{| at_name := "a_pos"; at_handle := None; at_bind := 3 |}] |}.

(** A store with the flat program behind reference 1 and the unlit
    program behind reference 2, as their constructors leave them. *)
Definition twoPlain : World :=
  {| heap := <[1 := flatProgram (Some 0)]> (<[2 := unlitProgram (Some 1)]> ∅);
     context := contextOfTwo |}.

(** Idempotence of [compile] at a state, as the specification words it:
    whatever the first call did, the calls after it return the boolean
    the first call returned and give the context no further call. *)
Definition compileIsIdempotentAt (assertionsEnabled : bool) (driver : Driver) (s : PState)
    : Prop :=
  let first := ShaderProgram_compile assertionsEnabled driver s in
  forall n,
    exists b,
      fst first = Normal b /\
      fst (repeatCall n (ShaderProgram_compile assertionsEnabled driver) (snd first))
      = Normal (repeat b n) /\
      calls (snd (snd (repeatCall n (ShaderProgram_compile assertionsEnabled driver)
                         (snd first))))
      = calls (snd (snd first)).

(* ------------------------------------------------------------------ *)
(** ** Basic facts of the monad *)

Lemma bind_Normal_inv {S A B : Type} (m : Exec S A) (k : A -> Exec S B) s b s' :
  bind m k s = (Normal b, s') ->
  exists a s0, m s = (Normal a, s0) /\ k a s0 = (Normal b, s').
Proof.
  unfold bind. destruct (m s) as [[a | msg] s0]; intros H.
  - exists a, s0. split; [reflexivity | exact H].
  - discriminate H.
Qed.

Lemma bind_Normal {S A B : Type} (m : Exec S A) (k : A -> Exec S B) s a s0 :
  m s = (Normal a, s0) -> bind m k s = k a s0.
Proof. intros H. unfold bind. rewrite H. reflexivity. Qed.

Lemma bind_Throw {S A B : Type} (m : Exec S A) (k : A -> Exec S B) s msg s0 :
  m s = (Throw msg, s0) -> bind m k s = (Throw msg, s0).
Proof. intros H. unfold bind. rewrite H. reflexivity. Qed.

Lemma repeatCall_fixed {S A : Type} (m : Exec S A) s a :
  m s = (Normal a, s) ->
  forall n, repeatCall n m s = (Normal (repeat a n), s).
Proof.
  intros Hm. induction n as [| n IH]; cbn [repeatCall repeat].
  - reflexivity.
  - rewrite (bind_Normal _ _ _ Hm). rewrite (bind_Normal _ _ _ IH). reflexivity.
Qed.

Section ShaderProgramFacts.

Variable assertionsEnabled : bool.
Variable driver : Driver.

Local Abbreviation compile := (ShaderProgram_compile assertionsEnabled driver).
Local Abbreviation compile_shaders := (ShaderProgram_compile_shaders assertionsEnabled driver).
Local Abbreviation use := (ShaderProgram_use assertionsEnabled driver).
Local Abbreviation dispose := (ShaderProgram_dispose assertionsEnabled).
Local Abbreviation draw := (ShaderProgram_draw assertionsEnabled).

(** From a terminal status [compile] answers the cached boolean and
    touches nothing. *)
Lemma compile_cached (p : ShaderProgram) (gl : WebGLRenderingContext) (b : bool) :
  cachedResult (_status p) = Some b ->
  compile (p, gl) = (Normal b, (p, gl)).
Proof.
  unfold ShaderProgram_compile, bind, this. cbn.
  destruct (_status p); cbn; intros H; inversion H; reflexivity.
Qed.

Lemma compile_shaders_status s b s' :
  compile_shaders s = (Normal b, s') ->
  cachedResult (_status (fst s')) = Some b.
Proof.
  unfold ShaderProgram_compile_shaders. intros H.
  apply bind_Normal_inv in H as (vert & s1 & _ & H).
  apply bind_Normal_inv in H as (frag & s2 & _ & H).
  apply bind_Normal_inv in H as (linked & s3 & _ & H).
  destruct linked; cbn in H; inversion H; reflexivity.
Qed.

(** A call of [compile] that returns leaves a terminal status, the one
    that caches the returned boolean. *)
Lemma compile_status s b s' :
  compile s = (Normal b, s') ->
  cachedResult (_status (fst s')) = Some b.
Proof.
  destruct s as [p gl]. unfold ShaderProgram_compile, bind, this. cbn.
  destruct (_status p) eqn:Hst.
  - cbn. intros H. inversion H; subst. cbn. rewrite Hst. reflexivity.
  - cbn. intros H. inversion H; subst. cbn. rewrite Hst. reflexivity.
  - destruct (ShaderProgram_isValid p); cbn.
    + apply compile_shaders_status.
    + intros H. inversion H; subst. reflexivity.
Qed.

(** *** Resolving a descriptor *)

(** [Uniform.compile] on an unresolved uniform asks the context for the
    location once and keeps the answer. *)
Lemma Uniform_compile_resolves (prog : ShaderProgram) (glProgram : WebGLProgram)
    (u : Uniform) (gl : WebGLRenderingContext) :
  _glProgram prog = Some glProgram ->
  u_handle u = None ->
  let h := uniformLocationResult driver (calls gl) glProgram (u_name u) in
  Uniform_compile assertionsEnabled driver prog (u, gl)
  = (Normal (Uniform_isValid {| u_name := u_name u; u_handle := h |}),
     ({| u_name := u_name u; u_handle := h |}, logCall (GetUniformLocation glProgram (u_name u)) gl)).
Proof.
  intros Hgl Hu. unfold Uniform_compile, Uniform_isValid, bind, this, assert. cbn [fst snd].
  rewrite Hu, Hgl. cbn [negb]. rewrite andb_false_r. reflexivity.
Qed.

(** A resolved uniform is not resolved again: in a debug build the
    assertion stops [Uniform.compile] before it touches anything. *)
Lemma Uniform_compile_once (prog : ShaderProgram) (u : Uniform) (gl : WebGLRenderingContext) :
  assertionsEnabled = true ->
  Uniform_isValid u = true ->
  Uniform_compile assertionsEnabled driver prog (u, gl)
  = (Throw "Assert: Programmer Error", (u, gl)).
Proof.
  intros Hae Hvalid. unfold Uniform_compile, bind, this, assert. cbn [fst snd].
  rewrite Hae, Hvalid. reflexivity.
Qed.

(** *** What [compile] leaves alone *)

Lemma callsAdded_refl P gl : callsAdded P gl gl.
Proof.
  split; [reflexivity |]. exists []. rewrite app_nil_r. split; reflexivity.
Qed.

Lemma callsAdded_trans P gl1 gl2 gl3 :
  callsAdded P gl1 gl2 -> callsAdded P gl2 gl3 -> callsAdded P gl1 gl3.
Proof.
  intros [Hc1 (a1 & Ha1 & Hf1)] [Hc2 (a2 & Ha2 & Hf2)]. split.
  - congruence.
  - exists (a1 ++ a2). rewrite Ha2, Ha1, <- app_assoc. split; [reflexivity |].
    rewrite forallb_app, Hf1, Hf2. reflexivity.
Qed.

Lemma callsAdded_logCall (P : GLCall -> bool) c gl :
  P c = true -> callsAdded P gl (logCall c gl).
Proof.
  intros HP. split; [reflexivity |]. exists [c]. split; [reflexivity |].
  cbn. rewrite HP. reflexivity.
Qed.

Lemma set_status_status p : set_status (_status p) p = p.
Proof. destruct p; reflexivity. Qed.

Lemma set_status_twice st st' p : set_status st (set_status st' p) = set_status st p.
Proof. destruct p; reflexivity. Qed.

Lemma compileFrame_refl s : compileFrame s s.
Proof. split; [apply set_status_status | apply callsAdded_refl]. Qed.

Lemma compileFrame_trans s1 s2 s3 :
  compileFrame s1 s2 -> compileFrame s2 s3 -> compileFrame s1 s3.
Proof.
  intros [Hp1 Hc1] [Hp2 Hc2]. split.
  - rewrite <- Hp1 at 2. rewrite <- Hp2. rewrite set_status_twice. reflexivity.
  - eapply callsAdded_trans; eassumption.
Qed.

Lemma preserves_ret {S A : Type} (R : S -> S -> Prop) (a : A) :
  (forall s, R s s) -> preserves R (ret a).
Proof. intros Hrefl s. apply Hrefl. Qed.

Lemma preserves_bind {S A B : Type} (R : S -> S -> Prop) (m : Exec S A) (k : A -> Exec S B) :
  (forall s1 s2 s3, R s1 s2 -> R s2 s3 -> R s1 s3) ->
  preserves R m -> (forall a, preserves R (k a)) -> preserves R (bind m k).
Proof.
  intros Htrans Hm Hk s. unfold bind. specialize (Hm s).
  destruct (m s) as [[a | msg] s0]; cbn in Hm.
  - eapply Htrans; [exact Hm | apply Hk].
  - exact Hm.
Qed.

Lemma preserves_assert {S : Type} (R : S -> S -> Prop) (c : bool) :
  (forall s, R s s) -> preserves R (assert assertionsEnabled c).
Proof.
  intros Hrefl s. unfold assert. destruct (assertionsEnabled && negb c); apply Hrefl.
Qed.

Lemma compileFrame_this : preserves compileFrame (@this ShaderProgram WebGLRenderingContext).
Proof. intros s. apply compileFrame_refl. Qed.

Lemma compileFrame_set_status st :
  preserves compileFrame (@update ShaderProgram WebGLRenderingContext (set_status st)).
Proof.
  intros [p gl]. split; cbn.
  - rewrite set_status_twice. apply set_status_status.
  - apply callsAdded_refl.
Qed.

Lemma compileFrame_onContext {A : Type} (m : GL A) :
  (forall gl, callsAdded is_compile_or_link gl (snd (m gl))) ->
  preserves compileFrame (@onContext ShaderProgram A m).
Proof.
  intros Hm [p gl]. unfold onContext, zoom. cbn. specialize (Hm gl).
  destruct (m gl) as [c gl']. split; cbn.
  - apply set_status_status.
  - exact Hm.
Qed.

Ltac frame_step :=
  first
    [ apply preserves_bind; [exact compileFrame_trans | | intros ?]
    | apply preserves_ret; exact compileFrame_refl
    | apply preserves_assert; exact compileFrame_refl
    | apply compileFrame_this
    | apply compileFrame_set_status
    | apply compileFrame_onContext; intros ?; apply callsAdded_logCall; reflexivity ].

Lemma compileShader_frame ty :
  preserves compileFrame (ShaderProgram_compileShader assertionsEnabled driver ty).
Proof.
  unfold ShaderProgram_compileShader.
  frame_step; [frame_step |]. destruct a; repeat frame_step.
Qed.

Lemma linkProgram_frame vert frag :
  preserves compileFrame (ShaderProgram_linkProgram assertionsEnabled driver vert frag).
Proof.
  unfold ShaderProgram_linkProgram.
  frame_step; [frame_step |]. frame_step; [frame_step |].
  destruct (_glProgram a); repeat frame_step.
Qed.

Lemma compile_shaders_frame : preserves compileFrame compile_shaders.
Proof.
  unfold ShaderProgram_compile_shaders.
  frame_step; [apply compileShader_frame |].
  frame_step; [apply compileShader_frame |].
  frame_step.
  - destruct a as [vert |]; [destruct a0 as [frag |] |];
      first [apply linkProgram_frame | frame_step].
  - destruct a1; repeat frame_step.
Qed.

(** [compile] changes nothing of the program but its status, and asks the
    context for nothing but shader compilation and linking. *)
Lemma compile_frame : preserves compileFrame compile.
Proof.
  unfold ShaderProgram_compile.
  frame_step; [frame_step |].
  destruct (_status a); try (repeat frame_step).
  destruct (negb (ShaderProgram_isValid a)); [repeat frame_step | apply compile_shaders_frame].
Qed.

Lemma compile_keeps_descriptors s :
  let s' := snd (compile s) in
  _programUniforms (fst s') = _programUniforms (fst s) /\
  _graphicUniforms (fst s') = _graphicUniforms (fst s) /\
  _attributes (fst s') = _attributes (fst s) /\
  _glProgram (fst s') = _glProgram (fst s) /\
  _inUse (fst s') = _inUse (fst s).
Proof.
  cbn zeta. destruct (compile_frame s) as [Hp _].
  set (p' := fst (snd (compile s))) in *. rewrite <- Hp.
  destruct p'; cbn. repeat split.
Qed.

(** In a production build [compile] always returns. *)
Lemma compile_returns s :
  assertionsEnabled = false -> exists b s', compile s = (Normal b, s').
Proof.
  intros Hae. destruct s as [p gl].
  unfold ShaderProgram_compile, ShaderProgram_compile_shaders, ShaderProgram_compileShader,
    ShaderProgram_linkProgram, ShaderProgram_isValid, assert, bind, this, update, modify,
    onContext, zoom, ret, throw, gl_createShader, gl_shaderSource, gl_compileShader,
    gl_getShaderParameter, gl_attachShader, gl_linkProgram, gl_getProgramParameter.
  rewrite Hae. cbn.
  destruct (_status p); cbn; try (eexists; eexists; reflexivity).
  destruct (_glProgram p) as [glProgram |] eqn:Hgl; cbn; [| eexists; eexists; reflexivity].
  repeat
    (match goal with
     | |- context [match ?x with _ => _ end] =>
         lazymatch x with
         | createShaderResult _ _ _ => destruct x
         | compileStatusResult _ _ _ => destruct x
         | linkStatusResult _ _ _ => destruct x
         end
     end; cbn; rewrite ?Hgl; cbn);
    eexists; eexists; reflexivity.
Qed.

(** *** Well-formedness is established by the constructor and kept by
    every method *)

Lemma new_wellFormed vert frag description gl p gl' :
  ShaderProgram_new assertionsEnabled driver vert frag description gl = (Normal p, gl') ->
  wellFormed p /\ _glProgram p = createProgramResult driver (calls gl).
Proof.
  unfold ShaderProgram_new, gl_createProgram, assert, bind, ret. rewrite andb_false_r.
  intros H. inversion H; subst. split; [| reflexivity]. intros Hs. discriminate Hs.
Qed.

Lemma compile_wellFormed s : wellFormed (fst s) -> wellFormed (fst (snd (compile s))).
Proof.
  destruct s as [p gl]. unfold wellFormed.
  unfold ShaderProgram_compile, bind, this. cbn.
  destruct (_status p) eqn:Hst; cbn; try (rewrite Hst; tauto).
  unfold ShaderProgram_isValid. destruct (_glProgram p) as [glProgram |] eqn:Hgl; cbn.
  - intros _ _. destruct (compile_frame (p, gl)) as [Hp _].
    unfold ShaderProgram_compile, bind, this in Hp. cbn in Hp.
    rewrite Hst in Hp. unfold ShaderProgram_isValid in Hp. rewrite Hgl in Hp. cbn in Hp.
    rewrite <- Hp in Hgl.
    destruct (fst (snd (compile_shaders (p, gl)))); cbn in *. congruence.
  - intros _ Hs. discriminate Hs.
Qed.

(** [dispose], when it returns, leaves a well-formed program without a
    device program object. *)
Lemma dispose_wellFormed p gl p' gl' :
  wellFormed p ->
  dispose (p, gl) = (Normal tt, (p', gl')) ->
  wellFormed p' /\ _glProgram p' = None.
Proof.
  unfold wellFormed, ShaderProgram_dispose, bind, this, assert, update, modify, onContext,
    zoom, gl_deleteProgram, ret, throw. cbn.
  destruct (_glProgram p) as [glProgram |] eqn:Hgl; cbn.
  - destruct (assertionsEnabled && negb (negb (_inUse p))); cbn; intros Hwf H; inversion H; subst.
    cbn. split; [intros Hs; discriminate Hs | reflexivity].
  - intros Hwf H. inversion H; subst. split; [rewrite Hgl; exact Hwf | exact Hgl].
Qed.

Lemma preserves_weaken {S A : Type} (R R' : S -> S -> Prop) (m : Exec S A) :
  (forall s s', R s s' -> R' s s') -> preserves R m -> preserves R' m.
Proof. intros Hsub Hm s. apply Hsub, Hm. Qed.

Lemma preserves_forEach {S A : Type} (R : S -> S -> Prop) (xs : list A) (body : A -> Exec S unit) :
  (forall s, R s s) ->
  (forall s1 s2 s3, R s1 s2 -> R s2 s3 -> R s1 s3) ->
  (forall x, preserves R (body x)) -> preserves R (forEach xs body).
Proof.
  intros Hrefl Htrans Hbody. induction xs as [| x xs IH]; cbn [forEach].
  - apply preserves_ret, Hrefl.
  - apply preserves_bind; [exact Htrans | apply Hbody | intros _; exact IH].
Qed.

Lemma statusFrame_refl s : statusFrame s s.
Proof. split; reflexivity. Qed.

Lemma statusFrame_trans s1 s2 s3 : statusFrame s1 s2 -> statusFrame s2 s3 -> statusFrame s1 s3.
Proof. unfold statusFrame. intros [? ?] [? ?]. split; congruence. Qed.

Lemma statusFrame_onContext {A : Type} (m : GL A) :
  preserves statusFrame (@onContext ShaderProgram A m).
Proof.
  intros [p gl]. unfold onContext, zoom. cbn. destruct (m gl). split; reflexivity.
Qed.

Lemma statusFrame_update (f : ShaderProgram -> ShaderProgram) :
  (forall p, _status (f p) = _status p /\ _glProgram (f p) = _glProgram p) ->
  preserves statusFrame (@update ShaderProgram WebGLRenderingContext f).
Proof. intros Hf [p gl]. exact (Hf p). Qed.

Ltac status_step :=
  first
    [ apply preserves_bind; [exact statusFrame_trans | | intros ?]
    | apply preserves_ret; exact statusFrame_refl
    | apply preserves_assert; exact statusFrame_refl
    | apply preserves_forEach; [exact statusFrame_refl | exact statusFrame_trans | intros ?]
    | apply statusFrame_onContext
    | apply statusFrame_update; intros []; split; reflexivity
    | intros ?; apply statusFrame_refl ].

Lemma use_uniforms_statusFrame uniforms params :
  preserves statusFrame (ShaderProgram_use_uniforms uniforms params).
Proof.
  induction uniforms as [| u uniforms IH]; cbn [ShaderProgram_use_uniforms].
  - status_step.
  - status_step; [status_step |]. destruct (negb (ToBoolean a)); [status_step | exact IH].
Qed.

Lemma endUse_statusFrame : preserves statusFrame (ShaderProgram_endUse assertionsEnabled).
Proof. unfold ShaderProgram_endUse. repeat status_step. Qed.

Lemma draw_statusFrame params : preserves statusFrame (draw params).
Proof. unfold ShaderProgram_draw. repeat status_step. Qed.

Lemma addProgramUniform_statusFrame name binding :
  preserves statusFrame (ShaderProgram_addProgramUniform assertionsEnabled name binding).
Proof. unfold ShaderProgram_addProgramUniform. repeat status_step. Qed.

Lemma addGraphicUniform_statusFrame name binding :
  preserves statusFrame (ShaderProgram_addGraphicUniform assertionsEnabled name binding).
Proof. unfold ShaderProgram_addGraphicUniform. repeat status_step. Qed.

Lemma addAttribute_statusFrame name binding :
  preserves statusFrame (ShaderProgram_addAttribute assertionsEnabled name binding).
Proof. unfold ShaderProgram_addAttribute. repeat status_step. Qed.

Lemma statusFrame_wellFormedStep s s' : statusFrame s s' -> wellFormedStep s s'.
Proof. unfold statusFrame, wellFormedStep, wellFormed. intros [Hs Hg]. rewrite Hs, Hg. tauto. Qed.

Lemma wellFormedStep_trans s1 s2 s3 :
  wellFormedStep s1 s2 -> wellFormedStep s2 s3 -> wellFormedStep s1 s3.
Proof. unfold wellFormedStep. tauto. Qed.

Lemma use_wellFormed params : preserves wellFormedStep (use params).
Proof.
  unfold ShaderProgram_use.
  apply preserves_bind; [exact wellFormedStep_trans | intros s; exact (compile_wellFormed s) |].
  intros compiled.
  apply preserves_weaken with (R := statusFrame); [exact statusFrame_wellFormedStep |].
  destruct (negb compiled); [status_step |].
  status_step; [status_step |]. status_step; [status_step |].
  destruct (_glProgram a); [| status_step].
  repeat status_step. apply use_uniforms_statusFrame.
Qed.

Lemma dispose_wellFormedStep : preserves wellFormedStep dispose.
Proof.
  intros [p gl]. unfold wellFormedStep, wellFormed, ShaderProgram_dispose, bind, this, assert,
    update, modify, onContext, zoom, gl_deleteProgram, ret, throw. cbn [fst snd].
  destruct (_glProgram p) as [glProgram |] eqn:Hgl; cbn.
  - destruct (assertionsEnabled && negb (negb (_inUse p))); cbn.
    + rewrite Hgl. tauto.
    + intros _ H. discriminate H.
  - rewrite Hgl. tauto.
Qed.

Lemma invoke_wellFormed (c : ProgramCall) :
  preserves wellFormedStep (invoke assertionsEnabled driver c).
Proof.
  destruct c; cbn [invoke].
  - apply preserves_bind; [exact wellFormedStep_trans | intros s; exact (compile_wellFormed s) |].
    intros _ s H. exact H.
  - apply preserves_bind; [exact wellFormedStep_trans | apply use_wellFormed |].
    intros _ s H. exact H.
  - apply preserves_weaken with (R := statusFrame);
      [exact statusFrame_wellFormedStep | apply endUse_statusFrame].
  - apply preserves_weaken with (R := statusFrame);
      [exact statusFrame_wellFormedStep | apply draw_statusFrame].
  - apply preserves_weaken with (R := statusFrame);
      [exact statusFrame_wellFormedStep | apply addProgramUniform_statusFrame].
  - apply preserves_weaken with (R := statusFrame);
      [exact statusFrame_wellFormedStep | apply addGraphicUniform_statusFrame].
  - apply preserves_weaken with (R := statusFrame);
      [exact statusFrame_wellFormedStep | apply addAttribute_statusFrame].
  - apply dispose_wellFormedStep.
Qed.

(** X30. Every program object that exists, that is every object the
    constructor returned and any sequence of public method calls then
    worked on, is well formed: its status is [Success] only while it has
    a device program object. *)
Lemma reachable_wellFormed (p : ShaderProgram) :
  reachable assertionsEnabled driver p -> wellFormed p.
Proof.
  induction 1 as [vert frag description gl gl' p Hnew | c p gl _ IH].
  - exact (proj1 (new_wellFormed _ _ _ _ Hnew)).
  - exact (invoke_wellFormed c (p, gl) IH).
Qed.

(* ------------------------------------------------------------------ *)
(** ** The compile state machine *)

(** C3. Once a call of [compile] has returned a boolean, each further call
    (no [dispose] in between) returns that same boolean and leaves the
    program and the context, hence the list of device calls, as they
    were: nothing is compiled or linked again. *)
Theorem compile_idempotent (s s1 : PState) (b : bool) :
  compile s = (Normal b, s1) ->
  forall n, repeatCall n compile s1 = (Normal (repeat b n), s1).
Proof.
  intros Hfirst. apply repeatCall_fixed.
  destruct s1 as [p1 gl1]. apply compile_cached.
  exact (compile_status _ Hfirst).
Qed.

(** C10. When the device program object is absent, which is how the
    constructor leaves a program whose creation returned null and how
    [dispose] leaves any program, [compile] returns false, sets the status
    to [Failure] and gives the context no call; every later [compile]
    returns false as well. *)
Theorem compile_without_device_program (p : ShaderProgram) (gl : WebGLRenderingContext) :
  wellFormed p ->
  _glProgram p = None ->
  compile (p, gl) = (Normal false, (set_status Failure p, gl)) /\
  forall n, repeatCall n compile (set_status Failure p, gl)
            = (Normal (repeat false n), (set_status Failure p, gl)).
Proof.
  intros Hwf Hgl. split.
  - unfold ShaderProgram_compile, bind, this, ShaderProgram_isValid. cbn.
    destruct (_status p) eqn:Hst; cbn.
    + exfalso. exact (Hwf Hst Hgl).
    + rewrite <- Hst, set_status_status. reflexivity.
    + rewrite Hgl. reflexivity.
  - apply repeatCall_fixed. apply compile_cached. reflexivity.
Qed.

(* ------------------------------------------------------------------ *)
(** ** Activation and drawing *)

Lemma compile_call_is_neither_activation_nor_bind (added : list GLCall) :
  forallb is_compile_or_link added = true ->
  forallb (fun c => negb (is_activation c) && negb (is_bind c)) added = true.
Proof.
  induction added as [| c added IH]; cbn; [reflexivity |].
  intros H. apply andb_prop in H as [Hc Hrest].
  rewrite (IH Hrest), andb_true_r. destruct c; cbn in *; congruence.
Qed.

(** C6. When the compilation of a program fails, in particular when its
    status is already [Failure], [use] returns false and stops right
    there: the in-use flag is what it was, the context's current program
    is what it was, and the context received neither an activation nor a
    bind. *)
Theorem use_refused_after_failed_compile (params : ShaderProgramParams) (s s' : PState) :
  compile s = (Normal false, s') ->
  use params s = (Normal false, s') /\
  _inUse (fst s') = _inUse (fst s) /\
  currentProgram (snd s') = currentProgram (snd s) /\
  exists added,
    calls (snd s') = calls (snd s) ++ added /\
    forallb (fun c => negb (is_activation c) && negb (is_bind c)) added = true.
Proof.
  intros Hc. split; [| split; [| split]].
  - unfold ShaderProgram_use. rewrite (bind_Normal _ _ _ Hc). reflexivity.
  - pose proof (compile_keeps_descriptors s) as H. cbn zeta in H. rewrite Hc in H. apply H.
  - destruct (compile_frame s) as [_ [Hcur _]]. rewrite Hc in Hcur. exact Hcur.
  - destruct (compile_frame s) as [_ [_ (added & Hadd & Hall)]]. rewrite Hc in Hadd.
    exists added. split; [exact Hadd |].
    apply compile_call_is_neither_activation_nor_bind, Hall.
Qed.

(** When [compile] throws, [use] throws from the same state. *)
Lemma use_propagates_compile_throw (params : ShaderProgramParams) (s s' : PState) msg :
  compile s = (Throw msg, s') -> use params s = (Throw msg, s').
Proof. intros Hc. unfold ShaderProgram_use. apply bind_Throw, Hc. Qed.

(** With status [Failure] nothing at all changes. *)
Corollary use_refused_when_failed (params : ShaderProgramParams) p gl :
  _status p = Failure -> use params (p, gl) = (Normal false, (p, gl)).
Proof.
  intros Hst. apply use_refused_after_failed_compile.
  apply compile_cached. rewrite Hst. reflexivity.
Qed.

Lemma received_nil gl : received [] gl = gl.
Proof. destruct gl. unfold received. cbn. rewrite app_nil_r. reflexivity. Qed.

Lemma received_app a b gl : received b (received a gl) = received (a ++ b) gl.
Proof. unfold received. cbn. rewrite app_assoc. reflexivity. Qed.

Lemma forEach_graphicUniforms (params : DrawParams) (p : ShaderProgram) uniforms :
  forall gl,
    forEach uniforms (fun uniform => onContext (T := ShaderProgram) (GraphicUniform_bind uniform params)) (p, gl)
    = (Normal tt, (p, received (flat_map (graphicUniformCalls params) uniforms) gl)).
Proof.
  induction uniforms as [| u uniforms IH]; intros gl; cbn [forEach flat_map].
  - rewrite received_nil. reflexivity.
  - rewrite <- received_app, <- IH. unfold bind at 1.
    unfold GraphicUniform_bind, graphicUniformCalls, onContext, zoom.
    destruct (u_handle (gu_uniform u)); cbn; [reflexivity | rewrite received_nil; reflexivity].
Qed.

Lemma forEach_attributes (params : DrawParams) (p : ShaderProgram) attributes :
  forall gl,
    forEach attributes (fun attribute => onContext (T := ShaderProgram) (Attribute_bind attribute params)) (p, gl)
    = (Normal tt, (p, received (flat_map (attributeCalls params) attributes) gl)).
Proof.
  induction attributes as [| a attributes IH]; intros gl; cbn [forEach flat_map].
  - rewrite received_nil. reflexivity.
  - rewrite <- received_app, <- IH. unfold bind at 1.
    unfold Attribute_bind, attributeCalls, onContext, zoom.
    destruct (at_handle a); cbn; [reflexivity | rewrite received_nil; reflexivity].
Qed.

(** [draw] past its assertion: the two loops, one after the other. *)
Lemma draw_past_assertion (params : DrawParams) (p : ShaderProgram) (gl : WebGLRenderingContext) :
  assertionsEnabled && negb (_inUse p) = false ->
  draw params (p, gl)
  = (Normal tt,
     (p, received (flat_map (graphicUniformCalls params) (_graphicUniforms p)
                   ++ flat_map (attributeCalls params) (_attributes p)) gl)).
Proof.
  intros Hok. unfold ShaderProgram_draw, this, assert.
  unfold bind at 1. cbn [fst snd]. rewrite Hok.
  unfold bind at 1. unfold ret at 1.
  rewrite (bind_Normal _ _ _ (forEach_graphicUniforms params p (_graphicUniforms p) gl)).
  rewrite forEach_attributes, received_app. reflexivity.
Qed.

(** [draw] stopped by its assertion changes nothing. *)
Lemma draw_stopped (params : DrawParams) (p : ShaderProgram) (gl : WebGLRenderingContext) :
  assertionsEnabled && negb (_inUse p) = true ->
  draw params (p, gl) = (Throw "Assert: Programmer Error", (p, gl)).
Proof.
  intros Hko. unfold ShaderProgram_draw, this, assert.
  unfold bind at 1. cbn [fst snd]. rewrite Hko. reflexivity.
Qed.

(** C8. On a program in use, [draw] returns after binding every graphic
    uniform, in registration order, and then every attribute, in
    registration order; the context receives the uniform closures' calls
    before any attribute closure's call, and nothing else changes. *)
Theorem draw_binds_uniforms_then_attributes (params : DrawParams)
    (p : ShaderProgram) (gl : WebGLRenderingContext) :
  _inUse p = true ->
  draw params (p, gl)
  = (Normal tt,
     (p, received (flat_map (graphicUniformCalls params) (_graphicUniforms p)
                   ++ flat_map (attributeCalls params) (_attributes p)) gl)).
Proof.
  intros Hin. apply draw_past_assertion. rewrite Hin. apply andb_false_r.
Qed.

(* ------------------------------------------------------------------ *)
(** ** What [use], [endUse] and [draw] do to the flags *)

(** On a program without program uniforms [use] either returns true with
    the program in use and current on the context, or ends otherwise and
    leaves the in-use flag and the current program as they were. *)
Lemma use_outcome (params : ShaderProgramParams) (p : ShaderProgram)
    (gl : WebGLRenderingContext) c p' gl' :
  _programUniforms p = [] ->
  use params (p, gl) = (c, (p', gl')) ->
  _programUniforms p' = [] /\
  ((c = Normal true /\ _inUse p' = true /\ currentProgram gl' = _glProgram p') \/
   (c <> Normal true /\ _inUse p' = _inUse p /\ currentProgram gl' = currentProgram gl)).
Proof.
  intros Hnone. unfold ShaderProgram_use. unfold bind at 1.
  pose proof (compile_keeps_descriptors (p, gl)) as Hkeep. cbn zeta in Hkeep.
  destruct (compile_frame (p, gl)) as [_ [Hcur _]].
  destruct (compile (p, gl)) as [[compiled | msg] [p1 gl1]]; cbn [fst snd] in *.
  2: { intros H. inversion H; subst. destruct Hkeep as (Hpu & _ & _ & _ & Hin).
       split; [congruence |]. right. repeat split; [discriminate | exact Hin | exact Hcur]. }
  destruct Hkeep as (Hpu & _ & _ & _ & Hin).
  destruct compiled; cbn [negb].
  2: { intros H. inversion H; subst.
       split; [congruence |]. right. repeat split; [discriminate | exact Hin | exact Hcur]. }
  unfold bind, this, assert, update, modify, onContext, zoom, gl_useProgram, ret, throw,
    ShaderProgram_isValid. cbn [fst snd].
  destruct (_glProgram p1) as [glProgram |] eqn:Hgl; cbn [negb andb].
  2: { destruct assertionsEnabled; cbn; intros H; inversion H; subst;
       (split; [congruence |]); right; repeat split; congruence. }
  rewrite andb_false_r.
  destruct (assertionsEnabled && negb (negb (_inUse p1))); cbn.
  - intros H. inversion H; subst.
    split; [congruence |]. right. repeat split; [discriminate | exact Hin | exact Hcur].
  - rewrite Hpu, Hnone. cbn. intros H. inversion H; subst. cbn.
    split; [congruence |]. left. repeat split. symmetry. exact Hgl.
Qed.

(** [endUse] either returns, with the flag cleared and the null program
    current, or throws and changes nothing. *)
Lemma endUse_outcome (p : ShaderProgram) (gl : WebGLRenderingContext) c p' gl' :
  ShaderProgram_endUse assertionsEnabled (p, gl) = (c, (p', gl')) ->
  _programUniforms p' = _programUniforms p /\
  ((c = Normal tt /\ _inUse p' = false /\ currentProgram gl' = None) \/
   ((exists msg, c = Throw msg) /\ p' = p /\ gl' = gl)).
Proof.
  unfold ShaderProgram_endUse, bind, this, assert, update, modify, onContext, zoom,
    gl_useProgram, ret, throw. cbn [fst snd].
  destruct (assertionsEnabled && negb (_inUse p)); cbn; intros H; inversion H; subst.
  - split; [reflexivity |]. right. split; [eexists; reflexivity | split; reflexivity].
  - split; [reflexivity |]. left. repeat split.
Qed.

(** [draw] changes neither the program nor the context's current
    program. *)
Lemma draw_outcome (params : DrawParams) (p : ShaderProgram) (gl : WebGLRenderingContext) :
  fst (snd (draw params (p, gl))) = p /\
  currentProgram (snd (snd (draw params (p, gl)))) = currentProgram gl.
Proof.
  destruct (assertionsEnabled && negb (_inUse p)) eqn:Hassert.
  - rewrite (draw_stopped params p gl Hassert). split; reflexivity.
  - rewrite (draw_past_assertion params p gl Hassert). split; reflexivity.
Qed.

End ShaderProgramFacts.

Section ShaderProgramExecutorFacts.

Variable assertionsEnabled : bool.
Variable driver : Driver.

Local Abbreviation changeProgram := (ShaderProgramExecutor_changeProgram assertionsEnabled driver).
Local Abbreviation setProgram := (ShaderProgramExecutor_setProgram assertionsEnabled driver).

(** C7. When the executor's active program is [p], [setProgram(p)] gives
    the context no call at all, in particular no activation and no
    deactivation, and leaves the executor, every program and the context
    unchanged. *)
Theorem setProgram_same_program_noop (e : ShaderProgramExecutor) (w : World) (p : ProgramRef) :
  _program e = Some p ->
  setProgram p (e, w) = (Normal JsUndefined, (e, w)).
Proof.
  intros Hp. unfold ShaderProgramExecutor_setProgram, ShaderProgramExecutor_changeProgram.
  unfold bind, this. cbn [fst]. rewrite Hp.
  destruct (decide (Some p = Some p)) as [_ | Hne]; [reflexivity | contradiction].
Qed.

(* ------------------------------------------------------------------ *)
(** ** The executor on programs without program uniforms

    On such programs the loop of [use] has nothing to test, and the
    executor keeps the device and the in-use flags in step with the
    program it holds. *)

Local Abbreviation endUse := (ShaderProgram_endUse assertionsEnabled).
Local Abbreviation use := (ShaderProgram_use assertionsEnabled driver).
Local Abbreviation dispose := (ShaderProgramExecutor_dispose assertionsEnabled driver).

Lemma store_unchanged (w : World) (r : ProgramRef) (p : ShaderProgram) :
  heap w !! r = Some p ->
  {| heap := <[r := p]> (heap w); context := context w |} = w.
Proof. intros Hr. rewrite (insert_id _ _ _ Hr). destruct w; reflexivity. Qed.

Lemma mirrored_quiet (e : ShaderProgramExecutor) (w : World) :
  mirrored (e, w) -> _program e = None -> quiet w.
Proof.
  intros [Huse Hcur] Hnone. split; [| exact (Hcur Hnone)].
  intros r p Hr. destruct (_inUse p) eqn:Hin; [| reflexivity].
  specialize (Huse r p Hr Hin). cbn in Huse. congruence.
Qed.

Lemma quiet_mirrored (e : ShaderProgramExecutor) (w : World) : quiet w -> mirrored (e, w).
Proof.
  intros [Hidle Hcur]. split; [| intros _; exact Hcur].
  intros r p Hr Hin. cbn in Hr. rewrite (Hidle r p Hr) in Hin. discriminate Hin.
Qed.

(** Deactivating the held program: it throws and changes nothing, or it
    returns and the store is quiet. *)
Lemma endUse_phase (e : ShaderProgramExecutor) (w : World) (current : ProgramRef) :
  mirrored (e, w) -> noProgramUniforms w -> _program e = Some current ->
  (exists msg, onProgram current endUse (e, w) = (Throw msg, (e, w))) \/
  (exists w1, onProgram current endUse (e, w) = (Normal tt, (e, w1)) /\
              quiet w1 /\ noProgramUniforms w1).
Proof.
  intros [Huse _] Hnpu Hheld. unfold onProgram.
  destruct (heap w !! current) as [p |] eqn:Hp; [| left; eexists; reflexivity].
  destruct (endUse (p, context w)) as [c [p' gl']] eqn:Hend.
  apply endUse_outcome in Hend as [Hpu [(-> & Hin & Hcur) | ((msg & ->) & -> & ->)]].
  - right. eexists. split; [reflexivity |]. split; [split |]; cbn.
    + intros r q Hq. cbn [heap] in Hq.
      apply lookup_insert_Some in Hq as [[_ <-] | [Hne Hq]]; [exact Hin |].
      destruct (_inUse q) eqn:Hinq; [| reflexivity].
      specialize (Huse r q Hq Hinq). cbn in Huse. congruence.
    + exact Hcur.
    + intros r q Hq. cbn [heap] in Hq.
      apply lookup_insert_Some in Hq as [[_ <-] | [_ Hq]].
      * rewrite Hpu. exact (Hnpu _ _ Hp).
      * exact (Hnpu _ _ Hq).
  - left. exists msg. rewrite (store_unchanged _ _ Hp). reflexivity.
Qed.

(** Activating a program on a quiet store: [use] returns true and that
    program alone is in use, or it ends otherwise and the store is still
    quiet. *)
Lemma use_phase (e : ShaderProgramExecutor) (w : World) (r : ProgramRef)
    (params : ShaderProgramParams) :
  quiet w -> noProgramUniforms w ->
  exists c w1,
    onProgram r (use params) (e, w) = (c, (e, w1)) /\
    noProgramUniforms w1 /\
    ((c = Normal true /\
      forall r' q, heap w1 !! r' = Some q -> _inUse q = true -> r' = r) \/
     (c <> Normal true /\ quiet w1)).
Proof.
  intros [Hidle Hcur] Hnpu. unfold onProgram.
  destruct (heap w !! r) as [p |] eqn:Hp.
  2: { eexists; eexists. split; [reflexivity |]. split; [exact Hnpu |].
       right. split; [discriminate | split; assumption]. }
  destruct (use params (p, context w)) as [c [p' gl']] eqn:Huse.
  apply use_outcome in Huse as [Hpu Hcases]; [| exact (Hnpu _ _ Hp)].
  exists c. eexists. split; [reflexivity |]. split.
  - intros r' q Hq. cbn in Hq. apply lookup_insert_Some in Hq as [[_ <-] | [_ Hq]].
    + exact Hpu.
    + exact (Hnpu _ _ Hq).
  - destruct Hcases as [(-> & Hin & _) | (Hc & Hin & Hcur')].
    + left. split; [reflexivity |]. intros r' q Hq Hinq. cbn in Hq.
      apply lookup_insert_Some in Hq as [[Heq _] | [_ Hq]]; [symmetry; exact Heq |].
      rewrite (Hidle _ _ Hq) in Hinq. discriminate Hinq.
    + right. split; [exact Hc |]. split; cbn.
      * intros r' q Hq. cbn [heap] in Hq.
        apply lookup_insert_Some in Hq as [[_ <-] | [_ Hq]].
        -- rewrite Hin. exact (Hidle _ _ Hp).
        -- exact (Hidle _ _ Hq).
      * rewrite Hcur'. exact Hcur.
Qed.

(** The second half of [changeProgram], from a quiet store. *)
Lemma activate_phase (e : ShaderProgramExecutor) (w : World) (program : option ProgramRef) :
  quiet w -> noProgramUniforms w ->
  let s' := snd ((set_this_program program ;;
                  match program with
                  | Some r =>
                      e <- this ;;
                      used <- onProgram r (use (_params e)) ;;
                      if negb used then set_this_program None ;; ret false
                      else ret true
                  | None => ret true
                  end) (e, w)) in
  mirrored s' /\ noProgramUniforms (snd s').
Proof.
  intros Hq Hnpu. cbn zeta.
  assert (Hset : set_this_program program (e, w) = (Normal tt, (set_program program e, w)))
    by reflexivity.
  rewrite (bind_Normal _ _ _ Hset).
  destruct program as [r |].
  2: { split; [apply quiet_mirrored; exact Hq | exact Hnpu]. }
  set (e2 := set_program (Some r) e).
  assert (Hthis : this (e2, w) = (Normal e2, (e2, w))) by reflexivity.
  rewrite (bind_Normal _ _ _ Hthis).
  destruct (use_phase e2 r (_params e2) Hq Hnpu) as (c & w1 & Hrun & Hnpu1 & Hcases).
  destruct Hcases as [(-> & Honly) | (Hc & Hq1)].
  - rewrite (bind_Normal _ _ _ Hrun). cbn [negb]. unfold ret. cbn [snd].
    split; [| exact Hnpu1]. split; cbn [fst snd].
    + intros r' q Hr' Hin. rewrite (Honly _ _ Hr' Hin). reflexivity.
    + discriminate.
  - destruct c as [[|] | msg]; [contradiction | |].
    + rewrite (bind_Normal _ _ _ Hrun). cbn [negb].
      assert (Hclear : set_this_program None (e2, w1) = (Normal tt, (set_program None e2, w1)))
        by reflexivity.
      rewrite (bind_Normal _ _ _ Hclear). unfold ret. cbn [snd].
      split; [apply quiet_mirrored; exact Hq1 | exact Hnpu1].
    + rewrite (bind_Throw _ _ _ Hrun). cbn [snd].
      split; [apply quiet_mirrored; exact Hq1 | exact Hnpu1].
Qed.

Lemma changeProgram_mirrored (program : option ProgramRef) :
  preserves mirroredStep (changeProgram program).
Proof.
  intros [e w] [Hm Hnpu]. unfold ShaderProgramExecutor_changeProgram.
  assert (Hthis : this (e, w) = (Normal e, (e, w))) by reflexivity.
  rewrite (bind_Normal _ _ _ Hthis).
  destruct (decide (_program e = program)) as [_ | _]; [split; [exact Hm | exact Hnpu] |].
  destruct (_program e) as [current |] eqn:Hheld.
  - destruct (endUse_phase Hm Hnpu Hheld) as [(msg & Hend) | (w1 & Hend & Hq & Hnpu1)].
    + rewrite (bind_Throw _ _ _ Hend). split; [exact Hm | exact Hnpu].
    + rewrite (bind_Normal _ _ _ Hend). exact (activate_phase e program Hq Hnpu1).
  - assert (Hret : ret tt (e, w) = (Normal tt, (e, w))) by reflexivity.
    rewrite (bind_Normal _ _ _ Hret).
    exact (activate_phase e program (mirrored_quiet Hm Hheld) Hnpu).
Qed.

Lemma mirroredStep_refl s : mirroredStep s s.
Proof. intros H. exact H. Qed.

Lemma mirroredStep_trans s1 s2 s3 :
  mirroredStep s1 s2 -> mirroredStep s2 s3 -> mirroredStep s1 s3.
Proof. unfold mirroredStep. tauto. Qed.

Lemma onProgram_executor {A : Type} (r : ProgramRef) (m : Exec PState A)
    (e : ShaderProgramExecutor) (w : World) :
  fst (snd (onProgram r m (e, w))) = e.
Proof.
  unfold onProgram. destruct (heap w !! r) as [p |]; [| reflexivity].
  destruct (m (p, context w)) as [c [p' gl']]. reflexivity.
Qed.

Lemma onProgram_draw_mirrored (r : ProgramRef) (params : DrawParams) :
  preserves mirroredStep (onProgram r (ShaderProgram_draw assertionsEnabled params)).
Proof.
  intros [e w] [[Huse Hcur] Hnpu]. unfold onProgram.
  destruct (heap w !! r) as [p |] eqn:Hp; [| split; [split |]; assumption].
  destruct (draw_outcome assertionsEnabled params p (context w)) as [Hsame Hcur'].
  destruct (ShaderProgram_draw assertionsEnabled params (p, context w)) as [c [p' gl']].
  cbn [fst snd] in *. subst p'. rewrite (insert_id _ _ _ Hp).
  split; [split |]; cbn [fst snd heap context].
  - exact Huse.
  - intros Hnone. rewrite Hcur'. exact (Hcur Hnone).
  - exact Hnpu.
Qed.

Lemma draw_mirrored (params : DrawParams) :
  preserves mirroredStep (ShaderProgramExecutor_draw assertionsEnabled params).
Proof.
  unfold ShaderProgramExecutor_draw.
  apply preserves_bind; [exact mirroredStep_trans | intros s; apply mirroredStep_refl |].
  intros e.
  apply preserves_bind;
    [exact mirroredStep_trans | apply preserves_assert; exact mirroredStep_refl |].
  intros _. destruct (_program e) as [r |].
  - apply onProgram_draw_mirrored.
  - apply preserves_ret. exact mirroredStep_refl.
Qed.

Lemma setProgram_mirrored (program : ProgramRef) : preserves mirroredStep (setProgram program).
Proof.
  unfold ShaderProgramExecutor_setProgram.
  apply preserves_bind; [exact mirroredStep_trans | apply changeProgram_mirrored |].
  intros _. apply preserves_ret. exact mirroredStep_refl.
Qed.

Section WithTechniques.

Variable getTechniqueId : Geometry -> Target -> TechniqueId.
Variable getShader : Target -> TechniqueId -> TechniqueFlags -> ProgramRef.
Variable TechniqueFlags_defaults : TechniqueFlags.

Local Abbreviation drawInterrupt :=
  (ShaderProgramExecutor_drawInterrupt assertionsEnabled driver getTechniqueId getShader
     TechniqueFlags_defaults).
Local Abbreviation calls_run :=
  (runCalls assertionsEnabled driver getTechniqueId getShader TechniqueFlags_defaults).

Lemma drawInterrupt_mirrored (params : DrawParams) : preserves mirroredStep (drawInterrupt params).
Proof.
  unfold ShaderProgramExecutor_drawInterrupt.
  apply preserves_bind; [exact mirroredStep_trans | intros s; apply mirroredStep_refl |].
  intros e.
  apply preserves_bind;
    [exact mirroredStep_trans | apply preserves_assert; exact mirroredStep_refl |].
  intros _.
  apply preserves_bind; [exact mirroredStep_trans | apply setProgram_mirrored |].
  intros switched. destruct (ToBoolean switched).
  - apply draw_mirrored.
  - apply preserves_ret. exact mirroredStep_refl.
Qed.

Lemma runCalls_mirrored (cs : list ExecutorCall) : preserves mirroredStep (calls_run cs).
Proof.
  unfold runCalls.
  apply preserves_forEach; [exact mirroredStep_refl | exact mirroredStep_trans |].
  intros [program | params | params]; cbn [runCall].
  - apply preserves_bind; [exact mirroredStep_trans | apply setProgram_mirrored |].
    intros _. apply preserves_ret. exact mirroredStep_refl.
  - apply draw_mirrored.
  - apply drawInterrupt_mirrored.
Qed.

Lemma mirrored_atMostOneInUse (s : EState) : mirrored s -> atMostOneInUse (snd s).
Proof.
  intros [Huse _] r1 r2 p1 p2 H1 H2 Hin1 Hin2.
  specialize (Huse r1 p1 H1 Hin1) as Hr1. specialize (Huse r2 p2 H2 Hin2) as Hr2.
  congruence.
Qed.

Lemma changeProgram_None_held (s s' : EState) (b : bool) :
  changeProgram None s = (Normal b, s') -> _program (fst s') = None.
Proof.
  destruct s as [e w]. unfold ShaderProgramExecutor_changeProgram.
  assert (Hthis : this (e, w) = (Normal e, (e, w))) by reflexivity.
  rewrite (bind_Normal _ _ _ Hthis).
  destruct (decide (_program e = None)) as [Hnone | _].
  - intros H. inversion H; subst. exact Hnone.
  - intros H. apply bind_Normal_inv in H as ([] & s1 & _ & H).
    destruct s1 as [e1 w1]. unfold bind, set_this_program, update, modify, ret in H.
    cbn in H. inversion H; subst. reflexivity.
Qed.

(** X29. On programs without program uniforms the executor does what its
    contract says: from a quiet store, whatever the initial program and
    the operations, at most one program is in use at any point of the
    scope, and a [dispose] that returns leaves no program in use and no
    current program on the context. *)
Lemma executor_scope_without_program_uniforms (target : Target) (pass : RenderPass)
    (program : option ProgramRef) (w : World) (cs : list ExecutorCall) :
  quiet w -> noProgramUniforms w ->
  let constructed := snd (ShaderProgramExecutor_new assertionsEnabled driver target pass program w) in
  let s := snd (calls_run cs constructed) in
  atMostOneInUse (snd constructed) /\
  atMostOneInUse (snd s) /\
  forall s', dispose s = (Normal tt, s') -> quiet (snd s').
Proof.
  intros Hq Hnpu. cbn zeta.
  set (constructed := snd (ShaderProgramExecutor_new assertionsEnabled driver target pass program w)).
  set (s := snd (calls_run cs constructed)).
  assert (H1 : mirrored constructed /\ noProgramUniforms (snd constructed)).
  { apply (changeProgram_mirrored program). split; [apply quiet_mirrored; exact Hq | exact Hnpu]. }
  assert (H2 : mirrored s /\ noProgramUniforms (snd s)).
  { apply (runCalls_mirrored cs). exact H1. }
  split; [apply mirrored_atMostOneInUse; exact (proj1 H1) |].
  split; [apply mirrored_atMostOneInUse; exact (proj1 H2) |].
  intros s' Hd. unfold ShaderProgramExecutor_dispose in Hd.
  apply bind_Normal_inv in Hd as (b & s0 & Hchange & Hret).
  inversion Hret; subst s0.
  assert (H3 : mirrored s' /\ noProgramUniforms (snd s')).
  { replace s' with (snd (changeProgram None s)) by (rewrite Hchange; reflexivity).
    apply (changeProgram_mirrored None). exact H2. }
  destruct s' as [e' w']. apply (mirrored_quiet (e := e')); [exact (proj1 H3) |].
  exact (changeProgram_None_held _ Hchange).
Qed.

End WithTechniques.

End ShaderProgramExecutorFacts.

(* ------------------------------------------------------------------ *)
(** ** The programs above are what the constructor and the registrations
    produce *)

Example litProgram_constructed (assertionsEnabled : bool) :
  configured assertionsEnabled acceptingDriver
    "void main() { gl_Position = u_proj * a_pos; }"
    "void main() { gl_FragColor = u_color; }" "lit"
    (ShaderProgram_addProgramUniform assertionsEnabled "u_proj" 1 ;;
     ShaderProgram_addGraphicUniform assertionsEnabled "u_color" 2 ;;
     ShaderProgram_addAttribute assertionsEnabled "a_pos" 3)
    freshContext
  = (Normal (litProgram (Some 0)), contextOfOne).
Proof. destruct assertionsEnabled; reflexivity. Qed.

Example unlitProgram_constructed (assertionsEnabled : bool) :
  configured assertionsEnabled acceptingDriver
    "void main() { gl_Position = a_pos; }"
    "void main() { gl_FragColor = u_color; }" "unlit"
    (ShaderProgram_addGraphicUniform assertionsEnabled "u_color" 2 ;;
     ShaderProgram_addAttribute assertionsEnabled "a_pos" 3)
    contextOfOne
  = (Normal (unlitProgram (Some 1)), contextOfTwo).
Proof. destruct assertionsEnabled; reflexivity. Qed.

Example litProgram_without_device_object (assertionsEnabled : bool) :
  configured assertionsEnabled exhaustedDriver
    "void main() { gl_Position = u_proj * a_pos; }"
    "void main() { gl_FragColor = u_color; }" "lit"
    (ShaderProgram_addProgramUniform assertionsEnabled "u_proj" 1 ;;
     ShaderProgram_addGraphicUniform assertionsEnabled "u_color" 2 ;;
     ShaderProgram_addAttribute assertionsEnabled "a_pos" 3)
    freshContext
  = (Normal (litProgram None), contextOfOne).
Proof. destruct assertionsEnabled; reflexivity. Qed.

Lemma twoPrograms_none_in_use : atMostOneInUse twoPrograms.
Proof.
  intros r1 r2 p1 p2 H1 _ Hin1 _. exfalso.
  unfold twoPrograms in H1. cbn in H1.
  apply lookup_insert_Some in H1 as [[_ <-] | [_ H1]]; [discriminate Hin1 |].
  apply lookup_insert_Some in H1 as [[_ <-] | [_ H1]]; [discriminate Hin1 |].
  rewrite lookup_empty in H1. discriminate H1.
Qed.

Lemma two_in_use_not_atMostOne (w : World) (r1 r2 : ProgramRef) :
  r1 <> r2 -> inUseAt w r1 = Some true -> inUseAt w r2 = Some true -> ~ atMostOneInUse w.
Proof.
  unfold inUseAt. intros Hne H1 H2 Hone.
  destruct (heap w !! r1) as [p1 |] eqn:Hp1; [| discriminate H1].
  destruct (heap w !! r2) as [p2 |] eqn:Hp2; [| discriminate H2].
  cbn in H1, H2. injection H1 as H1. injection H2 as H2.
  exact (Hne (Hone r1 r2 p1 p2 Hp1 Hp2 H1 H2)).
Qed.

(* ------------------------------------------------------------------ *)
(** ** Where the code departs from its contract *)

(** The loop of [use] stops after the first program uniform: [bind]
    evaluates to [undefined], which the loop takes for a failure. *)
Lemma use_stops_at_first_program_uniform (uniform : ProgramUniform)
    (rest : list ProgramUniform) (params : ShaderProgramParams) (s : PState) :
  ShaderProgram_use_uniforms (uniform :: rest) params s
  = (Normal false, snd (onContext (ProgramUniform_bind uniform params) s)).
Proof.
  cbn [ShaderProgram_use_uniforms]. unfold bind.
  destruct s as [p gl]. unfold onContext, zoom, ProgramUniform_bind, bind.
  destruct (u_handle (pu_uniform uniform)); reflexivity.
Qed.


(** C1. The lit program, as constructed, compiles and links on the
    accepting driver; [use] activates it and marks it in use, and then
    returns false, although no bind reported a failure. *)
Theorem use_returns_false_with_a_program_uniform (assertionsEnabled : bool) :
  ShaderProgram_use assertionsEnabled acceptingDriver passParams (litProgram (Some 0), contextOfOne)
  = (Normal false,
     (set_inUse true (set_status Success (litProgram (Some 0))),
      {| calls :=
           [CreateProgram;
            CreateShader Vertex;
            ShaderSource 1 "void main() { gl_Position = u_proj * a_pos; }";
            CompileShader 1; GetShaderParameter 1;
            CreateShader Fragment;
            ShaderSource 5 "void main() { gl_FragColor = u_color; }";
            CompileShader 5; GetShaderParameter 5;
            AttachShader 0 1; AttachShader 0 5; LinkProgram 0; GetProgramParameter 0;
            UseProgram (Some 0)];
         currentProgram := Some 0 |})).
Proof. destruct assertionsEnabled; reflexivity. Qed.

(** C9. The lit program compiles and links, and after that successful
    [compile] none of its registered descriptors has a handle: the
    context was never asked for a location. *)
Theorem compile_resolves_no_handle (assertionsEnabled : bool) :
  let r := ShaderProgram_compile assertionsEnabled acceptingDriver
             (litProgram (Some 0), contextOfOne) in
  fst r = Normal true /\
  map (fun u => Uniform_isValid (pu_uniform u)) (_programUniforms (fst (snd r))) = [false] /\
  map (fun u => Uniform_isValid (gu_uniform u)) (_graphicUniforms (fst (snd r))) = [false] /\
  map Attribute_isValid (_attributes (fst (snd r))) = [false] /\
  existsb (fun c => match c with
                    | GetUniformLocation _ _ | GetAttribLocation _ _ => true
                    | _ => false
                    end) (calls (snd (snd r))) = false.
Proof. destruct assertionsEnabled; cbv zeta; repeat split. Qed.

(** C4. An executor is constructed on the lit program, whose [use]
    returns false after marking it in use, and is then given the unlit
    program: no program was in use before, both are in use after. *)
Theorem two_programs_in_use (assertionsEnabled : bool) :
  let constructed :=
    ShaderProgramExecutor_new assertionsEnabled acceptingDriver 0 0 (Some 1) twoPrograms in
  let after :=
    runCalls assertionsEnabled acceptingDriver singleTechniqueId singleShader 0
      [CallSetProgram 2] (snd constructed) in
  atMostOneInUse twoPrograms /\
  fst constructed = Normal false /\
  fst after = Normal tt /\
  inUseAt (snd (snd after)) 1 = Some true /\
  inUseAt (snd (snd after)) 2 = Some true /\
  ~ atMostOneInUse (snd (snd after)).
Proof.
  cbv zeta. split; [exact twoPrograms_none_in_use |].
  assert (Hflags :
    inUseAt (snd (snd (runCalls assertionsEnabled acceptingDriver singleTechniqueId
      singleShader 0 [CallSetProgram 2]
      (snd (ShaderProgramExecutor_new assertionsEnabled acceptingDriver 0 0 (Some 1)
              twoPrograms))))) 1 = Some true /\
    inUseAt (snd (snd (runCalls assertionsEnabled acceptingDriver singleTechniqueId
      singleShader 0 [CallSetProgram 2]
      (snd (ShaderProgramExecutor_new assertionsEnabled acceptingDriver 0 0 (Some 1)
              twoPrograms))))) 2 = Some true)
    by (destruct assertionsEnabled; vm_compute; split; reflexivity).
  destruct Hflags as [H1 H2].
  split; [destruct assertionsEnabled; reflexivity |].
  split; [destruct assertionsEnabled; reflexivity |].
  split; [exact H1 |]. split; [exact H2 |].
  apply (two_in_use_not_atMostOne (r1 := 1) (r2 := 2)); [discriminate | exact H1 | exact H2].
Qed.

(** C5. An executor is constructed on the lit program, whose [use]
    returns false after activating it, and is then disposed: [dispose]
    finds no active program and does nothing, the lit program is still
    marked in use and is still the context's current program. *)
Theorem dispose_leaves_program_active (assertionsEnabled : bool) :
  let constructed :=
    ShaderProgramExecutor_new assertionsEnabled acceptingDriver 0 0 (Some 1) twoPrograms in
  let disposed :=
    ShaderProgramExecutor_dispose assertionsEnabled acceptingDriver (snd constructed) in
  fst constructed = Normal false /\
  fst disposed = Normal tt /\
  inUseAt (snd (snd disposed)) 1 = Some true /\
  currentProgram (context (snd (snd disposed))) = Some 0 /\
  last (calls (context (snd (snd disposed)))) = Some (UseProgram (Some 0)).
Proof. destruct assertionsEnabled; vm_compute; repeat split. Qed.

(* ------------------------------------------------------------------ *)
(** ** The theorems at concrete inputs *)

Lemma compile_idempotent_witness :
  let s := (litProgram (Some 0), contextOfOne) in
  let s1 := snd (ShaderProgram_compile true acceptingDriver s) in
  ShaderProgram_compile true acceptingDriver s = (Normal true, s1) /\
  repeatCall 3 (ShaderProgram_compile true acceptingDriver) s1
  = (Normal [true; true; true], s1).
Proof.
  cbv zeta. split; [reflexivity |].
  exact (@compile_idempotent true acceptingDriver (litProgram (Some 0), contextOfOne)
           (snd (ShaderProgram_compile true acceptingDriver (litProgram (Some 0), contextOfOne)))
           true eq_refl 3).
Defined.

Lemma compile_without_device_program_witness :
  wellFormed (litProgram None) /\
  _glProgram (litProgram None) = None /\
  ShaderProgram_compile true acceptingDriver (litProgram None, contextOfOne)
  = (Normal false, (set_status Failure (litProgram None), contextOfOne)) /\
  repeatCall 2 (ShaderProgram_compile true acceptingDriver)
    (set_status Failure (litProgram None), contextOfOne)
  = (Normal [false; false], (set_status Failure (litProgram None), contextOfOne)).
Proof.
  assert (Hwf : wellFormed (litProgram None)) by (intros H; discriminate H).
  split; [exact Hwf |]. split; [reflexivity |].
  destruct (@compile_without_device_program true acceptingDriver (litProgram None)
              contextOfOne Hwf eq_refl) as [Hfirst Hlater].
  split; [exact Hfirst | exact (Hlater 2)].
Defined.

Lemma use_refused_after_failed_compile_witness :
  let s := (brokenProgram (Some 0), contextOfOne) in
  let s' := snd (ShaderProgram_compile false strictDriver s) in
  ShaderProgram_compile false strictDriver s = (Normal false, s') /\
  ShaderProgram_use false strictDriver passParams s = (Normal false, s') /\
  _inUse (fst s') = false /\
  currentProgram (snd s') = None.
Proof.
  cbv zeta.
  assert (Hc : ShaderProgram_compile false strictDriver (brokenProgram (Some 0), contextOfOne)
               = (Normal false,
                  snd (ShaderProgram_compile false strictDriver
                         (brokenProgram (Some 0), contextOfOne))))
    by reflexivity.
  destruct (@use_refused_after_failed_compile false strictDriver passParams _ _ Hc)
    as (Huse & Hin & Hcur & _).
  split; [exact Hc |]. split; [exact Huse |]. split; [exact Hin | exact Hcur].
Defined.

Lemma setProgram_same_program_noop_witness :
  let e := {| _program := Some 2; _params := passParams |} in
  _program e = Some 2 /\
  ShaderProgramExecutor_setProgram true acceptingDriver 2 (e, twoPrograms)
  = (Normal JsUndefined, (e, twoPrograms)).
Proof.
  cbv zeta. split; [reflexivity |].
  apply (@setProgram_same_program_noop true acceptingDriver). reflexivity.
Defined.

Lemma draw_binds_uniforms_then_attributes_witness :
  _inUse (readyProgram true) = true /\
  ShaderProgram_draw true primitive (readyProgram true, contextOfOne)
  = (Normal tt,
     (readyProgram true,
      {| calls := [CreateProgram;
                   CallBindGraphicUniform 2 4 primitive;
                   CallBindAttribute 3 6 primitive];
         currentProgram := None |})).
Proof.
  split; [reflexivity |].
  apply (@draw_binds_uniforms_then_attributes true primitive (readyProgram true) contextOfOne).
  reflexivity.
Defined.

(* ------------------------------------------------------------------ *)
(** ** More of the compile state machine *)

Lemma logCall_as_received (c : GLCall) (gl : WebGLRenderingContext) :
  logCall c gl = received [c] gl.
Proof. reflexivity. Qed.

Lemma useProgram_as_received (p : option WebGLProgram) (gl : WebGLRenderingContext) :
  {| calls := calls gl ++ [UseProgram p]; currentProgram := p |}
  = {| calls := calls (received [UseProgram p] gl); currentProgram := p |}.
Proof. reflexivity. Qed.

Ltac unfold_compile :=
  unfold ShaderProgram_compile, ShaderProgram_compile_shaders, ShaderProgram_compileShader,
    ShaderProgram_linkProgram, ShaderProgram_isValid, assert, bind, this, update, modify,
    onContext, zoom, ret, throw, gl_createShader, gl_shaderSource, gl_compileShader,
    gl_getShaderParameter, gl_attachShader, gl_linkProgram, gl_getProgramParameter;
  unfold modify; cbn -[logCall].

Ltac unfold_compile_in H :=
  unfold ShaderProgram_compile, ShaderProgram_compile_shaders, ShaderProgram_compileShader,
    ShaderProgram_linkProgram, ShaderProgram_isValid, assert, bind, this, update, modify,
    onContext, zoom, ret, throw, gl_createShader, gl_shaderSource, gl_compileShader,
    gl_getShaderParameter, gl_attachShader, gl_linkProgram, gl_getProgramParameter in H;
  unfold modify in H; cbn -[logCall] in H.

Ltac case_driver :=
  match goal with
  | |- context [match ?x with _ => _ end] =>
      lazymatch x with
      | createShaderResult _ _ _ => destruct x eqn:?
      | compileStatusResult _ _ _ => destruct x eqn:?
      | linkStatusResult _ _ _ => destruct x eqn:?
      end
  | H : context [match ?x with _ => _ end] |- _ =>
      lazymatch x with
      | createShaderResult _ _ _ => destruct x eqn:?
      | compileStatusResult _ _ _ => destruct x eqn:?
      | linkStatusResult _ _ _ => destruct x eqn:?
      end
  end.

(** X1. Whatever it returns or throws, [compile] changes nothing of the
    program but its status, leaves the context's current program alone,
    and gives the context only shader-compile and link calls. *)
Theorem compile_changes_only_the_status (assertionsEnabled : bool) (driver : Driver)
    (p : ShaderProgram) (gl : WebGLRenderingContext) :
  let s' := snd (ShaderProgram_compile assertionsEnabled driver (p, gl)) in
  set_status (_status p) (fst s') = p /\
  currentProgram (snd s') = currentProgram gl /\
  exists added,
    calls (snd s') = calls gl ++ added /\ forallb is_compile_or_link added = true.
Proof.
  cbn zeta. destruct (compile_frame assertionsEnabled driver (p, gl)) as [Hp [Hcur Hadd]].
  split; [exact Hp | split; [exact Hcur | exact Hadd]].
Qed.

(** X2. The boolean that [compile] returns is the status it leaves:
    [Success] with true, [Failure] with false, never [Uncompiled]. *)
Theorem compile_result_is_the_status (assertionsEnabled : bool) (driver : Driver)
    (s s' : PState) (b : bool) :
  ShaderProgram_compile assertionsEnabled driver s = (Normal b, s') ->
  _status (fst s') = if b then Success else Failure.
Proof.
  intros H. apply compile_status in H.
  destruct (_status (fst s')), b; cbn in H; congruence.
Qed.

(** X3. In a production build [compile] never throws, whatever the driver
    answers. *)
Theorem compile_returns_in_production (driver : Driver) (s : PState) :
  exists b s', ShaderProgram_compile false driver s = (Normal b, s').
Proof. apply compile_returns. reflexivity. Qed.

(** X4. In a debug build, when the driver rejects the vertex shader,
    [compile] throws at the assertion of [compileShader]: the fragment
    shader is not attempted and the status stays [Uncompiled], so that a
    later [compile] starts over. *)
Theorem compile_throws_on_rejected_vertex_shader (driver : Driver) (p : ShaderProgram)
    (gl : WebGLRenderingContext) (g : WebGLProgram) (sh : WebGLShader) :
  _status p = Uncompiled ->
  _glProgram p = Some g ->
  createShaderResult driver (calls gl) Vertex = Some sh ->
  compileStatusResult driver
    (calls (received [CreateShader Vertex; ShaderSource sh (vertSource p); CompileShader sh] gl))
    sh = false ->
  ShaderProgram_compile true driver (p, gl)
  = (Throw "Assert: Programmer Error",
     (p, received (shaderCalls Vertex sh (vertSource p)) gl)).
Proof.
  intros Hst Hgl Hcreate Hrejected. unfold_compile.
  rewrite Hst, Hgl. cbn -[logCall]. rewrite Hcreate. cbn -[logCall].
  rewrite !logCall_as_received, !received_app. cbn [app].
  rewrite Hrejected. reflexivity.
Qed.

(** X5. In a production build, a compilation that starts (status
    [Uncompiled], device object present) always attempts both shaders:
    the context is asked to create the vertex and the fragment shader,
    whatever happens to the first. *)
Theorem compile_attempts_both_shaders (driver : Driver) (p : ShaderProgram)
    (gl : WebGLRenderingContext) (g : WebGLProgram) :
  _status p = Uncompiled ->
  _glProgram p = Some g ->
  exists added,
    calls (snd (snd (ShaderProgram_compile false driver (p, gl)))) = calls gl ++ added /\
    In (CreateShader Vertex) added /\ In (CreateShader Fragment) added.
Proof.
  intros Hst Hgl. unfold_compile. rewrite Hst, Hgl. cbn -[logCall].
  repeat (case_driver; cbn -[logCall]; rewrite ?Hgl);
    cbn; rewrite <- ?app_assoc; (eexists; split; [reflexivity |]); cbn; tauto.
Qed.

(** X6. A compilation that returns true has linked: starting from
    [Uncompiled], the program has a device object and the context was
    asked to create both shaders and to link that object. *)
Theorem compile_true_has_linked (assertionsEnabled : bool) (driver : Driver)
    (p : ShaderProgram) (gl : WebGLRenderingContext) (s' : PState) :
  _status p = Uncompiled ->
  ShaderProgram_compile assertionsEnabled driver (p, gl) = (Normal true, s') ->
  exists g added,
    _glProgram p = Some g /\
    calls (snd s') = calls gl ++ added /\
    In (CreateShader Vertex) added /\ In (CreateShader Fragment) added /\
    In (LinkProgram g) added /\
    last added = Some (GetProgramParameter g).
Proof.
  intros Hst Hrun. unfold_compile_in Hrun. rewrite Hst in Hrun.
  destruct (_glProgram p) as [g |] eqn:Hgl; cbn -[logCall] in Hrun; [| discriminate Hrun].
  exists g.
  destruct assertionsEnabled; cbn -[logCall] in Hrun;
    repeat (case_driver; cbn -[logCall] in Hrun; rewrite ?Hgl in Hrun; cbn -[logCall] in Hrun);
    cbn in Hrun; inversion Hrun; subst; cbn;
    rewrite <- ?app_assoc; (eexists; split; [reflexivity |]); (split; [reflexivity |]);
    cbn; tauto.
Qed.

(** X7. When the driver cannot create the vertex shader, a production
    build still attempts the fragment shader, never attaches or links,
    and returns false with status [Failure]. *)
Theorem compile_without_vertex_shader (driver : Driver) (p : ShaderProgram)
    (gl : WebGLRenderingContext) (g : WebGLProgram) :
  _status p = Uncompiled ->
  _glProgram p = Some g ->
  createShaderResult driver (calls gl) Vertex = None ->
  exists gl' added,
    ShaderProgram_compile false driver (p, gl) = (Normal false, (set_status Failure p, gl')) /\
    calls gl' = calls gl ++ added /\
    In (CreateShader Fragment) added /\
    forallb (fun c => negb (is_link c)) added = true.
Proof.
  intros Hst Hgl Hnone. unfold_compile. rewrite Hst, Hgl. cbn -[logCall].
  rewrite Hnone. cbn -[logCall].
  repeat (case_driver; cbn -[logCall]; rewrite ?Hgl);
    eexists; eexists; (split; [reflexivity |]); cbn; rewrite <- ?app_assoc;
    (split; [reflexivity |]); (split; [cbn; tauto | reflexivity]).
Qed.

(* ------------------------------------------------------------------ *)
(** ** Disposal, activation and registration of a program *)

(** X8. A [dispose] that returns leaves the program without device
    object; the context was asked to delete the object the program had,
    once, and nothing if it had none; any further [dispose] returns
    without a call and without a change: an object is deleted at most
    once. *)
Theorem dispose_releases_once (assertionsEnabled : bool) (p p' : ShaderProgram)
    (gl gl' : WebGLRenderingContext) :
  ShaderProgram_dispose assertionsEnabled (p, gl) = (Normal tt, (p', gl')) ->
  _glProgram p' = None /\
  gl' = received (match _glProgram p with Some g => [DeleteProgram g] | None => [] end) gl /\
  forall gl2, ShaderProgram_dispose assertionsEnabled (p', gl2) = (Normal tt, (p', gl2)).
Proof.
  unfold ShaderProgram_dispose, bind, this, assert, update, modify, onContext, zoom,
    gl_deleteProgram, ret, throw. cbn [fst snd].
  destruct (_glProgram p) as [g |] eqn:Hgl.
  - destruct (assertionsEnabled && negb (negb (_inUse p))); cbn; intros H; inversion H; subst.
    cbn. repeat split.
  - intros H. inversion H; subst. rewrite Hgl, received_nil. repeat split.
Qed.

(** X9. [dispose] of a program in use: a debug build throws and releases
    nothing; a production build deletes the device object and resets the
    status, and the program stays marked in use. *)
Theorem dispose_of_program_in_use (p : ShaderProgram) (gl : WebGLRenderingContext)
    (g : WebGLProgram) :
  _glProgram p = Some g ->
  _inUse p = true ->
  ShaderProgram_dispose true (p, gl) = (Throw "Assert: Programmer Error", (p, gl)) /\
  ShaderProgram_dispose false (p, gl)
  = (Normal tt, (set_status Uncompiled (set_glProgram None p), received [DeleteProgram g] gl)) /\
  _inUse (set_status Uncompiled (set_glProgram None p)) = true.
Proof.
  intros Hgl Hin.
  unfold ShaderProgram_dispose, bind, this, assert, update, modify, onContext, zoom,
    gl_deleteProgram, ret, throw. cbn [fst snd]. rewrite Hgl, Hin. cbn.
  repeat split. exact Hin.
Qed.

(** What a [use] that returns true has done. *)
Lemma use_true_inv (assertionsEnabled : bool) (driver : Driver) (params : ShaderProgramParams)
    (s s1 : PState) :
  ShaderProgram_use assertionsEnabled driver params s = (Normal true, s1) ->
  exists p0 gl0 g,
    ShaderProgram_compile assertionsEnabled driver s = (Normal true, (p0, gl0)) /\
    _glProgram p0 = Some g /\
    _programUniforms p0 = [] /\
    s1 = (set_inUse true p0, {| calls := calls gl0 ++ [UseProgram (Some g)];
                                currentProgram := Some g |}).
Proof.
  unfold ShaderProgram_use. intros H.
  apply bind_Normal_inv in H as (compiled & [p0 gl0] & Hc & H).
  destruct compiled; [| discriminate H]. cbn [negb] in H.
  exists p0, gl0.
  unfold bind, this, assert, update, modify, onContext, zoom, gl_useProgram, ret, throw,
    ShaderProgram_isValid in H. cbn [fst snd] in H.
  destruct (_glProgram p0) as [g |] eqn:Hgl; cbn [negb andb] in H.
  2: { destruct assertionsEnabled; cbn in H; discriminate H. }
  rewrite andb_false_r in H.
  destruct (assertionsEnabled && negb (negb (_inUse p0))); cbn in H; [discriminate H |].
  exists g. split; [exact Hc |]. split; [reflexivity |].
  destruct (_programUniforms p0) as [| u rest] eqn:Hpu.
  - cbn in H. inversion H; subst. split; reflexivity.
  - exfalso. cbn [ShaderProgram_use_uniforms] in H. unfold bind, onContext, zoom in H.
    destruct (ProgramUniform_bind u params _) as [[v | msg] gl1] eqn:Hbind;
      unfold ProgramUniform_bind, bind in Hbind;
      destruct (u_handle (pu_uniform u)); cbn in Hbind; inversion Hbind; subst;
      cbn in H; discriminate H.
Qed.

(** X10. On a program that has no program uniform and is not in use,
    once its compilation returns true, [use] returns true: the program is
    marked in use and the context receives, after the compilation's
    calls, exactly the activation of the program's device object. *)
Theorem use_activates_program_without_program_uniforms (assertionsEnabled : bool)
    (driver : Driver) (params : ShaderProgramParams) (p p1 : ShaderProgram)
    (gl gl1 : WebGLRenderingContext) (g : WebGLProgram) :
  _programUniforms p = [] ->
  _inUse p = false ->
  _glProgram p = Some g ->
  ShaderProgram_compile assertionsEnabled driver (p, gl) = (Normal true, (p1, gl1)) ->
  ShaderProgram_use assertionsEnabled driver params (p, gl)
  = (Normal true,
     (set_inUse true p1,
      {| calls := calls gl1 ++ [UseProgram (Some g)]; currentProgram := Some g |})).
Proof.
  intros Hpu Hin Hgl Hc. unfold ShaderProgram_use. rewrite (bind_Normal _ _ _ Hc). cbn [negb].
  pose proof (compile_keeps_descriptors assertionsEnabled driver (p, gl)) as Hkeep.
  cbn zeta in Hkeep. rewrite Hc in Hkeep. cbn [fst snd] in Hkeep.
  destruct Hkeep as (Hpu1 & _ & _ & Hgl1 & Hin1).
  rewrite Hpu in Hpu1. rewrite Hgl in Hgl1. rewrite Hin in Hin1.
  unfold bind, this, assert, update, modify, onContext, zoom, gl_useProgram, ret, throw,
    ShaderProgram_isValid. cbn [fst snd].
  rewrite Hgl1, Hin1. cbn. rewrite !andb_false_r. cbn. rewrite Hpu1. reflexivity.
Qed.

(** X11. Strict alternation in a debug build: [use] on a linked program
    that is already in use throws, [endUse] on a program that is not in
    use throws, and both leave the program and the context as they
    were. *)
Theorem strict_alternation_in_debug (driver : Driver) (params : ShaderProgramParams)
    (p : ShaderProgram) (gl : WebGLRenderingContext) :
  (_status p = Success -> _glProgram p <> None -> _inUse p = true ->
   ShaderProgram_use true driver params (p, gl) = (Throw "Assert: Programmer Error", (p, gl))) /\
  (_inUse p = false ->
   ShaderProgram_endUse true (p, gl) = (Throw "Assert: Programmer Error", (p, gl))).
Proof.
  split.
  - intros Hst Hgl Hin. unfold ShaderProgram_use.
    assert (Hc : ShaderProgram_compile true driver (p, gl) = (Normal true, (p, gl)))
      by (apply compile_cached; rewrite Hst; reflexivity).
    rewrite (bind_Normal _ _ _ Hc). cbn [negb].
    unfold bind, this, assert, ShaderProgram_isValid, ret, throw. cbn [fst snd].
    destruct (_glProgram p) as [g |]; [| contradiction]. cbn. rewrite Hin. reflexivity.
  - intros Hin. unfold ShaderProgram_endUse, bind, this, assert, throw. cbn [fst snd].
    rewrite Hin. reflexivity.
Qed.

(** X12. After a [use] that returned true, [endUse] returns: it clears
    the in-use flag, asks the context for the null program and changes
    nothing else, in either build. *)
Theorem endUse_after_use (assertionsEnabled : bool) (driver : Driver)
    (params : ShaderProgramParams) (s : PState) (p1 : ShaderProgram)
    (gl1 : WebGLRenderingContext) :
  ShaderProgram_use assertionsEnabled driver params s = (Normal true, (p1, gl1)) ->
  _inUse p1 = true /\
  _status p1 = Success /\
  ShaderProgram_endUse assertionsEnabled (p1, gl1)
  = (Normal tt,
     (set_inUse false p1,
      {| calls := calls gl1 ++ [UseProgram None]; currentProgram := None |})).
Proof.
  intros Huse. apply use_true_inv in Huse as (p0 & gl0 & g & Hc & Hgl & Hpu & Heq).
  inversion Heq; subst. apply compile_status in Hc. cbn [fst] in Hc.
  split; [reflexivity |]. split.
  - cbn. destruct (_status p0); cbn in Hc; congruence.
  - unfold ShaderProgram_endUse, bind, this, assert, update, modify, onContext, zoom,
      gl_useProgram, ret. cbn. rewrite andb_false_r. reflexivity.
Qed.

(* ------------------------------------------------------------------ *)
(** ** Registration *)

Lemma set_graphicUniforms_twice l l' p :
  set_graphicUniforms l (set_graphicUniforms l' p) = set_graphicUniforms l p.
Proof. destruct p; reflexivity. Qed.

Lemma set_attributes_twice l l' p :
  set_attributes l (set_attributes l' p) = set_attributes l p.
Proof. destruct p; reflexivity. Qed.

Lemma set_programUniforms_twice l l' p :
  set_programUniforms l (set_programUniforms l' p) = set_programUniforms l p.
Proof. destruct p; reflexivity. Qed.

Lemma addGraphicUniforms_run (assertionsEnabled : bool)
    (registrations : list (string * BindGraphicUniform)) :
  forall (p : ShaderProgram) (gl : WebGLRenderingContext),
    _status p = Uncompiled ->
    forEach registrations
      (fun r => ShaderProgram_addGraphicUniform assertionsEnabled (fst r) (snd r)) (p, gl)
    = (Normal tt,
       (set_graphicUniforms (_graphicUniforms p ++ map newGraphicUniform registrations) p, gl)).
Proof.
  induction registrations as [| r rest IH]; intros p gl Hst; cbn [forEach map].
  - rewrite app_nil_r. destruct p; reflexivity.
  - assert (Hadd : ShaderProgram_addGraphicUniform assertionsEnabled (fst r) (snd r) (p, gl)
                   = (Normal tt,
                      (set_graphicUniforms (_graphicUniforms p ++ [newGraphicUniform r]) p, gl))).
    { unfold ShaderProgram_addGraphicUniform, bind, this, assert, update, modify,
        ShaderProgram_isUncompiled. cbn [fst snd]. rewrite Hst. cbn.
      rewrite andb_false_r. reflexivity. }
    rewrite (bind_Normal _ _ _ Hadd). rewrite IH by exact Hst.
    cbn [_graphicUniforms set_graphicUniforms]. rewrite set_graphicUniforms_twice.
    rewrite <- app_assoc. reflexivity.
Qed.

Lemma addAttributes_run (assertionsEnabled : bool)
    (registrations : list (string * BindAttribute)) :
  forall (p : ShaderProgram) (gl : WebGLRenderingContext),
    _status p = Uncompiled ->
    forEach registrations
      (fun r => ShaderProgram_addAttribute assertionsEnabled (fst r) (snd r)) (p, gl)
    = (Normal tt,
       (set_attributes (_attributes p ++ map newAttribute registrations) p, gl)).
Proof.
  induction registrations as [| r rest IH]; intros p gl Hst; cbn [forEach map].
  - rewrite app_nil_r. destruct p; reflexivity.
  - assert (Hadd : ShaderProgram_addAttribute assertionsEnabled (fst r) (snd r) (p, gl)
                   = (Normal tt, (set_attributes (_attributes p ++ [newAttribute r]) p, gl))).
    { unfold ShaderProgram_addAttribute, bind, this, assert, update, modify,
        ShaderProgram_isUncompiled. cbn [fst snd]. rewrite Hst. cbn.
      rewrite andb_false_r. reflexivity. }
    rewrite (bind_Normal _ _ _ Hadd). rewrite IH by exact Hst.
    cbn [_attributes set_attributes]. rewrite set_attributes_twice.
    rewrite <- app_assoc. reflexivity.
Qed.

Lemma addProgramUniforms_run (assertionsEnabled : bool)
    (registrations : list (string * BindProgramUniform)) :
  forall (p : ShaderProgram) (gl : WebGLRenderingContext),
    _status p = Uncompiled ->
    forEach registrations
      (fun r => ShaderProgram_addProgramUniform assertionsEnabled (fst r) (snd r)) (p, gl)
    = (Normal tt,
       (set_programUniforms (_programUniforms p ++ map newProgramUniform registrations) p, gl)).
Proof.
  induction registrations as [| r rest IH]; intros p gl Hst; cbn [forEach map].
  - rewrite app_nil_r. destruct p; reflexivity.
  - assert (Hadd : ShaderProgram_addProgramUniform assertionsEnabled (fst r) (snd r) (p, gl)
                   = (Normal tt,
                      (set_programUniforms (_programUniforms p ++ [newProgramUniform r]) p, gl))).
    { unfold ShaderProgram_addProgramUniform, bind, this, assert, update, modify,
        ShaderProgram_isUncompiled. cbn [fst snd]. rewrite Hst. cbn.
      rewrite andb_false_r. reflexivity. }
    rewrite (bind_Normal _ _ _ Hadd). rewrite IH by exact Hst.
    cbn [_programUniforms set_programUniforms]. rewrite set_programUniforms_twice.
    rewrite <- app_assoc. reflexivity.
Qed.

(** X13. On an uncompiled program any sequence of registrations returns
    and appends the new descriptors, unresolved, after those already
    registered and in the order of the calls; this holds for program
    uniforms, graphic uniforms and attributes, and the context is not
    touched. *)
Theorem registrations_append_in_order (assertionsEnabled : bool) (p : ShaderProgram)
    (gl : WebGLRenderingContext)
    (programUniforms : list (string * BindProgramUniform))
    (graphicUniforms : list (string * BindGraphicUniform))
    (attributes : list (string * BindAttribute)) :
  _status p = Uncompiled ->
  forEach programUniforms
    (fun r => ShaderProgram_addProgramUniform assertionsEnabled (fst r) (snd r)) (p, gl)
  = (Normal tt,
     (set_programUniforms (_programUniforms p ++ map newProgramUniform programUniforms) p, gl)) /\
  forEach graphicUniforms
    (fun r => ShaderProgram_addGraphicUniform assertionsEnabled (fst r) (snd r)) (p, gl)
  = (Normal tt,
     (set_graphicUniforms (_graphicUniforms p ++ map newGraphicUniform graphicUniforms) p, gl)) /\
  forEach attributes
    (fun r => ShaderProgram_addAttribute assertionsEnabled (fst r) (snd r)) (p, gl)
  = (Normal tt, (set_attributes (_attributes p ++ map newAttribute attributes) p, gl)).
Proof.
  intros Hst. split; [| split].
  - apply addProgramUniforms_run, Hst.
  - apply addGraphicUniforms_run, Hst.
  - apply addAttributes_run, Hst.
Qed.

(** X14. Once a program has been compiled (status [Success] or
    [Failure]) a debug build refuses every registration: the call throws
    and the program keeps its descriptor lists. *)
Theorem registration_refused_after_compile (p : ShaderProgram) (gl : WebGLRenderingContext)
    (name : string) (binding : nat) :
  _status p <> Uncompiled ->
  ShaderProgram_addProgramUniform true name binding (p, gl)
  = (Throw "Assert: Programmer Error", (p, gl)) /\
  ShaderProgram_addGraphicUniform true name binding (p, gl)
  = (Throw "Assert: Programmer Error", (p, gl)) /\
  ShaderProgram_addAttribute true name binding (p, gl)
  = (Throw "Assert: Programmer Error", (p, gl)).
Proof.
  intros Hst.
  unfold ShaderProgram_addProgramUniform, ShaderProgram_addGraphicUniform,
    ShaderProgram_addAttribute, bind, this, assert, ShaderProgram_isUncompiled, throw.
  cbn [fst snd]. destruct (_status p); [| | contradiction]; repeat split.
Qed.

Lemma graphicUniformCalls_new params r : graphicUniformCalls params (newGraphicUniform r) = [].
Proof. reflexivity. Qed.

Lemma attributeCalls_new params r : attributeCalls params (newAttribute r) = [].
Proof. reflexivity. Qed.

Lemma draw_context (assertionsEnabled : bool) (params : DrawParams) (p : ShaderProgram)
    (gl : WebGLRenderingContext) :
  snd (snd (ShaderProgram_draw assertionsEnabled params (p, gl)))
  = if assertionsEnabled && negb (_inUse p) then gl
    else received (flat_map (graphicUniformCalls params) (_graphicUniforms p)
                   ++ flat_map (attributeCalls params) (_attributes p)) gl.
Proof.
  destruct (assertionsEnabled && negb (_inUse p)) eqn:Hassert.
  - rewrite (draw_stopped _ params p gl Hassert). reflexivity.
  - rewrite (draw_past_assertion _ params p gl Hassert). reflexivity.
Qed.

(** X15. A registration never changes what the next [draw] gives the
    context: whether [addGraphicUniform] or [addAttribute] returns or
    throws, in either build and whatever the status, [draw] on the
    program it leaves asks the context for exactly what it asked
    before, because a descriptor is registered without a handle. *)
Theorem registration_does_not_change_draw (assertionsEnabled : bool) (p : ShaderProgram)
    (gl gl2 : WebGLRenderingContext) (name : string) (binding : nat) (params : DrawParams) :
  let withUniform :=
    fst (snd (ShaderProgram_addGraphicUniform assertionsEnabled name binding (p, gl))) in
  let withAttribute :=
    fst (snd (ShaderProgram_addAttribute assertionsEnabled name binding (p, gl))) in
  snd (snd (ShaderProgram_draw assertionsEnabled params (withUniform, gl2)))
  = snd (snd (ShaderProgram_draw assertionsEnabled params (p, gl2))) /\
  snd (snd (ShaderProgram_draw assertionsEnabled params (withAttribute, gl2)))
  = snd (snd (ShaderProgram_draw assertionsEnabled params (p, gl2))).
Proof.
  cbn zeta. rewrite !draw_context.
  unfold ShaderProgram_addGraphicUniform, ShaderProgram_addAttribute, bind, this, assert,
    update, modify, ret, throw. cbn [fst snd].
  destruct (assertionsEnabled && negb (ShaderProgram_isUncompiled p)); cbn [fst snd].
  - split; reflexivity.
  - cbn [_inUse _graphicUniforms _attributes set_graphicUniforms set_attributes].
    rewrite !flat_map_app. cbn [flat_map]. rewrite !app_nil_r.
    destruct (assertionsEnabled && negb (_inUse p)); split; reflexivity.
Qed.

(* ------------------------------------------------------------------ *)
(** ** Resolving and binding a descriptor *)

(** X16. A uniform resolved by [Uniform.compile] is bound with the handle
    the driver gave: the context is asked once for the location of the
    uniform's name, [compile] returns whether a location was found, and
    a later [bind] calls the closure with that very handle, or calls
    nothing when none was found. *)
Theorem uniform_is_bound_with_its_resolved_handle (assertionsEnabled : bool) (driver : Driver)
    (prog : ShaderProgram) (g : WebGLProgram) (u : Uniform) (gl : WebGLRenderingContext)
    (f : BindProgramUniform) (params : ShaderProgramParams) :
  _glProgram prog = Some g ->
  u_handle u = None ->
  let found := uniformLocationResult driver (calls gl) g (u_name u) in
  let resolved := {| u_name := u_name u; u_handle := found |} in
  let gl' := received [GetUniformLocation g (u_name u)] gl in
  Uniform_compile assertionsEnabled driver prog (u, gl)
  = (Normal (Uniform_isValid resolved), (resolved, gl')) /\
  ProgramUniform_bind {| pu_uniform := resolved; pu_bind := f |} params gl'
  = (Normal JsUndefined,
     received (match found with
               | Some h => [CallBindProgramUniform f h params]
               | None => []
               end) gl').
Proof.
  intros Hgl Hu. cbn zeta. split.
  - rewrite (Uniform_compile_resolves assertionsEnabled driver prog u gl Hgl Hu).
    reflexivity.
  - unfold ProgramUniform_bind, bind, callBindProgramUniform, modify, ret. cbn [u_handle pu_uniform].
    destruct (uniformLocationResult driver (calls gl) g (u_name u)).
    + reflexivity.
    + rewrite received_nil. reflexivity.
Qed.

(** X17. The same for an attribute: [Attribute.compile] asks once for
    the attribute's location and a later [bind] calls the closure with
    the handle found, or nothing. *)
Theorem attribute_is_bound_with_its_resolved_handle (assertionsEnabled : bool) (driver : Driver)
    (prog : ShaderProgram) (g : WebGLProgram) (a : Attribute) (gl : WebGLRenderingContext)
    (params : DrawParams) :
  _glProgram prog = Some g ->
  at_handle a = None ->
  let found := attribLocationResult driver (calls gl) g (at_name a) in
  let resolved := {| at_name := at_name a; at_handle := found; at_bind := at_bind a |} in
  let gl' := received [GetAttribLocation g (at_name a)] gl in
  Attribute_compile assertionsEnabled driver prog (a, gl)
  = (Normal (Attribute_isValid resolved), (resolved, gl')) /\
  Attribute_bind resolved params gl' = (Normal tt, received (attributeCalls params resolved) gl').
Proof.
  intros Hgl Ha. cbn zeta. split.
  - unfold Attribute_compile, Attribute_isValid, bind, this, assert, update, modify, onContext,
      zoom, AttributeHandle_create, gl_getAttribLocation, ret. cbn [fst snd].
    rewrite Ha, Hgl. cbn. rewrite andb_false_r. reflexivity.
  - unfold Attribute_bind, attributeCalls, callBindAttribute, modify, ret. cbn [at_handle].
    destruct (attribLocationResult driver (calls gl) g (at_name a)).
    + reflexivity.
    + rewrite received_nil. reflexivity.
Qed.

(** X18. Resolving twice: on a uniform that already has a handle, a
    debug build throws before asking the context anything, while a
    production build asks again and replaces the handle by the new
    answer. *)
Theorem uniform_compile_on_resolved_uniform (driver : Driver) (prog : ShaderProgram)
    (g : WebGLProgram) (u : Uniform) (h : UniformHandle) (gl : WebGLRenderingContext) :
  _glProgram prog = Some g ->
  u_handle u = Some h ->
  Uniform_compile true driver prog (u, gl) = (Throw "Assert: Programmer Error", (u, gl)) /\
  snd (Uniform_compile false driver prog (u, gl))
  = ({| u_name := u_name u;
        u_handle := uniformLocationResult driver (calls gl) g (u_name u) |},
     received [GetUniformLocation g (u_name u)] gl).
Proof.
  intros Hgl Hu.
  unfold Uniform_compile, Uniform_isValid, bind, this, assert, update, modify, onContext, zoom,
    UniformHandle_create, gl_getUniformLocation, ret, throw. cbn [fst snd].
  rewrite Hu, Hgl. cbn. split; reflexivity.
Qed.

(** X19. Without a device program object nothing is resolved: on an
    unresolved descriptor [Uniform.compile] and [Attribute.compile] return
    false, ask the context nothing and leave the descriptor as it was. *)
Theorem descriptor_compile_without_device_object (assertionsEnabled : bool) (driver : Driver)
    (prog : ShaderProgram) (u : Uniform) (a : Attribute) (gl : WebGLRenderingContext) :
  _glProgram prog = None ->
  u_handle u = None ->
  at_handle a = None ->
  Uniform_compile assertionsEnabled driver prog (u, gl) = (Normal false, (u, gl)) /\
  Attribute_compile assertionsEnabled driver prog (a, gl) = (Normal false, (a, gl)).
Proof.
  intros Hgl Hu Ha.
  unfold Uniform_compile, Attribute_compile, Uniform_isValid, Attribute_isValid, bind, this,
    assert, ret. cbn [fst snd].
  rewrite Hu, Ha, Hgl. cbn. rewrite andb_false_r. cbn. rewrite Hu, Ha. split; reflexivity.
Qed.

(* ------------------------------------------------------------------ *)
(** ** More of the executor *)

Lemma onProgram_run {A : Type} (r : ProgramRef) (m : Exec PState A)
    (e : ShaderProgramExecutor) (w : World) (p p' : ShaderProgram)
    (gl' : WebGLRenderingContext) (c : Completion A) :
  heap w !! r = Some p ->
  m (p, context w) = (c, (p', gl')) ->
  onProgram r m (e, w) = (c, (e, {| heap := <[r := p']> (heap w); context := gl' |})).
Proof. intros Hr Hm. unfold onProgram. rewrite Hr, Hm. reflexivity. Qed.

Lemma endUse_run (assertionsEnabled : bool) (p : ShaderProgram) (gl : WebGLRenderingContext) :
  assertionsEnabled && negb (_inUse p) = false ->
  ShaderProgram_endUse assertionsEnabled (p, gl)
  = (Normal tt,
     (set_inUse false p, {| calls := calls gl ++ [UseProgram None]; currentProgram := None |})).
Proof.
  intros Hok. unfold ShaderProgram_endUse, bind, this, assert, update, modify, onContext, zoom,
    gl_useProgram, ret. cbn [fst snd]. rewrite Hok. reflexivity.
Qed.

Lemma use_on_linked_program (assertionsEnabled : bool) (driver : Driver)
    (params : ShaderProgramParams) (p : ShaderProgram) (gl : WebGLRenderingContext)
    (g : WebGLProgram) :
  _status p = Success -> _glProgram p = Some g -> _inUse p = false ->
  _programUniforms p = [] ->
  ShaderProgram_use assertionsEnabled driver params (p, gl)
  = (Normal true,
     (set_inUse true p,
      {| calls := calls gl ++ [UseProgram (Some g)]; currentProgram := Some g |})).
Proof.
  intros Hst Hgl Hin Hpu. unfold ShaderProgram_use.
  assert (Hc : ShaderProgram_compile assertionsEnabled driver (p, gl) = (Normal true, (p, gl)))
    by (apply compile_cached; rewrite Hst; reflexivity).
  rewrite (bind_Normal _ _ _ Hc). cbn [negb].
  unfold bind, this, assert, update, modify, onContext, zoom, gl_useProgram, ret, throw,
    ShaderProgram_isValid. cbn [fst snd].
  rewrite Hgl, Hin. cbn. rewrite !andb_false_r. cbn. rewrite Hpu. reflexivity.
Qed.

(** X20. Switching programs: when the executor holds program A, in use,
    and is given another program B that is linked, idle and without
    program uniform, the context receives exactly one deactivation
    followed by exactly one activation of B; A is no longer in use, B
    is, and the executor holds B. *)
Theorem changeProgram_switches (assertionsEnabled : bool) (driver : Driver)
    (e : ShaderProgramExecutor) (w : World) (a b : ProgramRef) (pa pb : ShaderProgram)
    (g : WebGLProgram) :
  _program e = Some a -> a <> b ->
  heap w !! a = Some pa -> _inUse pa = true ->
  heap w !! b = Some pb ->
  _status pb = Success -> _glProgram pb = Some g -> _inUse pb = false ->
  _programUniforms pb = [] ->
  ShaderProgramExecutor_changeProgram assertionsEnabled driver (Some b) (e, w)
  = (Normal true,
     (set_program (Some b) e,
      {| heap := <[b := set_inUse true pb]> (<[a := set_inUse false pa]> (heap w));
         context := {| calls := (calls (context w) ++ [UseProgram None])
                                ++ [UseProgram (Some g)];
                       currentProgram := Some g |} |})).
Proof.
  intros Hheld Hne Ha Hina Hb Hst Hgl Hinb Hpu.
  unfold ShaderProgramExecutor_changeProgram.
  assert (Hthis : this (e, w) = (Normal e, (e, w))) by reflexivity.
  rewrite (bind_Normal _ _ _ Hthis).
  destruct (decide (_program e = Some b)) as [Heq | _]; [congruence |].
  rewrite Hheld.
  assert (Hend : ShaderProgram_endUse assertionsEnabled (pa, context w)
                 = (Normal tt, (set_inUse false pa,
                      {| calls := calls (context w) ++ [UseProgram None];
                         currentProgram := None |})))
    by (apply endUse_run; rewrite Hina; apply andb_false_r).
  rewrite (bind_Normal _ _ _ (@onProgram_run _ a _ e _ _ _ _ _ Ha Hend)).
  set (w1 := {| heap := <[a := set_inUse false pa]> (heap w);
                context := {| calls := calls (context w) ++ [UseProgram None];
                              currentProgram := None |} |}).
  assert (Hset : set_this_program (Some b) (e, w1) = (Normal tt, (set_program (Some b) e, w1)))
    by reflexivity.
  rewrite (bind_Normal _ _ _ Hset).
  set (e2 := set_program (Some b) e).
  assert (Hthis2 : this (e2, w1) = (Normal e2, (e2, w1))) by reflexivity.
  rewrite (bind_Normal _ _ _ Hthis2).
  assert (Hb1 : heap w1 !! b = Some pb)
    by (unfold w1; cbn [heap]; rewrite lookup_insert_ne by exact Hne; exact Hb).
  pose proof (@use_on_linked_program assertionsEnabled driver (_params e2) pb (context w1) g
                Hst Hgl Hinb Hpu) as Huse.
  rewrite (bind_Normal _ _ _ (@onProgram_run _ b _ e2 _ _ _ _ _ Hb1 Huse)). reflexivity.
Qed.

(** X21. A failed activation empties the executor: when the executor
    holds program A, in use, and is given a program B whose compilation
    has failed, [changeProgram] returns false, A is deactivated, B is
    untouched, the context receives the deactivation only, and the
    executor holds no program. *)
Theorem changeProgram_to_failed_program (assertionsEnabled : bool) (driver : Driver)
    (e : ShaderProgramExecutor) (w : World) (a b : ProgramRef) (pa pb : ShaderProgram) :
  _program e = Some a -> a <> b ->
  heap w !! a = Some pa -> _inUse pa = true ->
  heap w !! b = Some pb -> _status pb = Failure ->
  ShaderProgramExecutor_changeProgram assertionsEnabled driver (Some b) (e, w)
  = (Normal false,
     (set_program None e,
      {| heap := <[a := set_inUse false pa]> (heap w);
         context := {| calls := calls (context w) ++ [UseProgram None];
                       currentProgram := None |} |})).
Proof.
  intros Hheld Hne Ha Hina Hb Hst.
  unfold ShaderProgramExecutor_changeProgram.
  assert (Hthis : this (e, w) = (Normal e, (e, w))) by reflexivity.
  rewrite (bind_Normal _ _ _ Hthis).
  destruct (decide (_program e = Some b)) as [Heq | _]; [congruence |].
  rewrite Hheld.
  assert (Hend : ShaderProgram_endUse assertionsEnabled (pa, context w)
                 = (Normal tt, (set_inUse false pa,
                      {| calls := calls (context w) ++ [UseProgram None];
                         currentProgram := None |})))
    by (apply endUse_run; rewrite Hina; apply andb_false_r).
  rewrite (bind_Normal _ _ _ (@onProgram_run _ a _ e _ _ _ _ _ Ha Hend)).
  set (w1 := {| heap := <[a := set_inUse false pa]> (heap w);
                context := {| calls := calls (context w) ++ [UseProgram None];
                              currentProgram := None |} |}).
  assert (Hset : set_this_program (Some b) (e, w1) = (Normal tt, (set_program (Some b) e, w1)))
    by reflexivity.
  rewrite (bind_Normal _ _ _ Hset).
  set (e2 := set_program (Some b) e).
  assert (Hthis2 : this (e2, w1) = (Normal e2, (e2, w1))) by reflexivity.
  rewrite (bind_Normal _ _ _ Hthis2).
  assert (Hb1 : heap w1 !! b = Some pb)
    by (unfold w1; cbn [heap]; rewrite lookup_insert_ne by exact Hne; exact Hb).
  pose proof (@use_refused_when_failed assertionsEnabled driver (_params e2) pb (context w1) Hst)
    as Huse.
  rewrite (bind_Normal _ _ _ (@onProgram_run _ b _ e2 _ _ _ _ _ Hb1 Huse)). cbn [negb].
  assert (Hclear : set_this_program None
                     (e2, {| heap := <[b := pb]> (heap w1); context := context w1 |})
                   = (Normal tt,
                      (set_program None e2,
                       {| heap := <[b := pb]> (heap w1); context := context w1 |})))
    by reflexivity.
  rewrite (bind_Normal _ _ _ Hclear). unfold ret.
  rewrite (insert_id _ _ _ Hb1). reflexivity.
Qed.

(** X22. The boolean of [changeProgram] tells what the executor holds:
    after a call that returns true the executor holds the program it
    was given (none, if it was given none), and after a call that
    returns false it holds none. *)
Theorem changeProgram_result_is_what_is_held (assertionsEnabled : bool) (driver : Driver)
    (program : option ProgramRef) (s s' : EState) (b : bool) :
  ShaderProgramExecutor_changeProgram assertionsEnabled driver program s = (Normal b, s') ->
  _program (fst s') = if b then program else None.
Proof.
  destruct s as [e w]. unfold ShaderProgramExecutor_changeProgram.
  assert (Hthis : this (e, w) = (Normal e, (e, w))) by reflexivity.
  rewrite (bind_Normal _ _ _ Hthis).
  destruct (decide (_program e = program)) as [Heq | _].
  - intros H. inversion H; subst. reflexivity.
  - intros H. apply bind_Normal_inv in H as ([] & [e1 w1] & _ & H).
    apply bind_Normal_inv in H as ([] & [e2 w2] & Hset & H).
    unfold set_this_program, update, modify in Hset. cbn in Hset. inversion Hset; subst.
    destruct program as [r |].
    + apply bind_Normal_inv in H as (e3 & s3 & Hthis3 & H).
      unfold this in Hthis3. inversion Hthis3; subst. cbn [fst] in H.
      apply bind_Normal_inv in H as (used & [e4 w4] & Huse & H).
      pose proof (onProgram_executor r
        (ShaderProgram_use assertionsEnabled driver (_params (set_program (Some r) e1)))
        (set_program (Some r) e1) w2) as He4.
      rewrite Huse in He4. cbn [fst snd] in He4. subst e4.
      destruct used; cbn [negb] in H.
      * inversion H; subst. reflexivity.
      * unfold bind, set_this_program, update, modify, ret in H. cbn in H.
        inversion H; subst. reflexivity.
    + inversion H; subst. reflexivity.
Qed.

(** X23. [draw] on an executor that holds no program reaches no program
    and gives the context no call: a debug build throws, a production
    build returns, and both leave the executor and the store as they
    were. *)
Theorem executor_draw_without_program (params : DrawParams) (e : ShaderProgramExecutor)
    (w : World) :
  _program e = None ->
  ShaderProgramExecutor_draw true params (e, w) = (Throw "Assert: Programmer Error", (e, w)) /\
  ShaderProgramExecutor_draw false params (e, w) = (Normal tt, (e, w)).
Proof.
  intros Hnone. unfold ShaderProgramExecutor_draw, ShaderProgramExecutor_isValid, bind, this,
    assert, ret, throw. cbn [fst snd]. rewrite Hnone. split; reflexivity.
Qed.

(** X24. [draw] on an executor that holds a program in use is that
    program's [draw]: the context receives the binds of its graphic
    uniforms and then of its attributes, and the executor, the programs
    and the current program are unchanged. *)
Theorem executor_draw_delegates (assertionsEnabled : bool) (params : DrawParams)
    (e : ShaderProgramExecutor) (w : World) (r : ProgramRef) (p : ShaderProgram) :
  _program e = Some r ->
  heap w !! r = Some p ->
  _inUse p = true ->
  ShaderProgramExecutor_draw assertionsEnabled params (e, w)
  = (Normal tt,
     (e, {| heap := heap w;
            context := received (flat_map (graphicUniformCalls params) (_graphicUniforms p)
                                 ++ flat_map (attributeCalls params) (_attributes p))
                                (context w) |})).
Proof.
  intros Hheld Hr Hin. unfold ShaderProgramExecutor_draw.
  assert (Hthis : this (e, w) = (Normal e, (e, w))) by reflexivity.
  rewrite (bind_Normal _ _ _ Hthis).
  assert (Hassert : assert assertionsEnabled (ShaderProgramExecutor_isValid e) (e, w)
                    = (Normal tt, (e, w))).
  { unfold assert, ShaderProgramExecutor_isValid. rewrite Hheld. cbn.
    rewrite andb_false_r. reflexivity. }
  rewrite (bind_Normal _ _ _ Hassert). rewrite Hheld.
  assert (Hdraw : ShaderProgram_draw assertionsEnabled params (p, context w)
                  = (Normal tt,
                     (p, received (flat_map (graphicUniformCalls params) (_graphicUniforms p)
                                   ++ flat_map (attributeCalls params) (_attributes p))
                                  (context w))))
    by (apply draw_past_assertion; rewrite Hin; apply andb_false_r).
  rewrite (@onProgram_run _ r _ e _ _ _ _ _ Hr Hdraw). rewrite (insert_id _ _ _ Hr). reflexivity.
Qed.

(* ------------------------------------------------------------------ *)
(** ** The identifiers found in a request path *)

Lemma split_not_nil (sep : ascii) (s : string) : split sep s <> [].
Proof.
  induction s as [| c rest IH]; cbn; [discriminate |].
  destruct (Ascii.eqb c sep); [discriminate |].
  destruct (split sep rest); [contradiction | discriminate].
Qed.

Lemma split_slashFree (s : string) :
  forallb slashFree (split "/" s) = true.
Proof.
  induction s as [| c rest IH]; cbn [split]; [reflexivity |].
  destruct (Ascii.eqb c "/") eqn:Hc.
  - cbn. exact IH.
  - destruct (split "/" rest) as [| token tokens]; cbn in *.
    + rewrite Hc. reflexivity.
    + rewrite Hc. exact IH.
Qed.

Lemma split_append (segment rest : string) :
  slashFree segment = true ->
  split "/" (segment ++ String "/" rest) = segment :: split "/" rest.
Proof.
  induction segment as [| c segment IH]; intros Hfree.
  - reflexivity.
  - cbn in Hfree. apply andb_prop in Hfree as [Hc Hrest].
    simpl. destruct (Ascii.eqb c "/"); [discriminate Hc |].
    rewrite (IH Hrest). reflexivity.
Qed.

Lemma split_segment (segment : string) :
  slashFree segment = true -> split "/" segment = [segment].
Proof.
  induction segment as [| c segment IH]; intros Hfree.
  - reflexivity.
  - cbn in Hfree. apply andb_prop in Hfree as [Hc Hrest].
    simpl. destruct (Ascii.eqb c "/"); [discriminate Hc |].
    rewrite (IH Hrest). reflexivity.
Qed.

(** Splitting a path written from slash-free segments gives the segments
    back. *)
Lemma split_joinPath (segments : list string) :
  segments <> [] ->
  forallb slashFree segments = true ->
  split "/" (joinPath segments) = segments.
Proof.
  induction segments as [| segment rest IH]; [contradiction |].
  intros _ Hfree. cbn in Hfree. apply andb_prop in Hfree as [Hseg Hrest].
  destruct rest as [| next rest'].
  - cbn. apply split_segment, Hseg.
  - change (joinPath (segment :: next :: rest'))
      with (segment ++ String "/" (joinPath (next :: rest')))%string.
    rewrite (@split_append segment _ Hseg). rewrite IH; [reflexivity | discriminate | exact Hrest].
Qed.

(** The index loop, from any index on, is the scan of the tokens still
    to come. *)
Lemma findPathIds_loop_is_scan (rest : list string) :
  forall (before : list string) (ids : PathIds),
    fold_left (findPathIds_turn (before ++ rest)) (seq (length before) (length rest)) ids
    = scanTokens rest ids.
Proof.
  induction rest as [| token rest IH]; intros before ids; [reflexivity |].
  cbn [length seq fold_left scanTokens].
  assert (Hturn : findPathIds_turn (before ++ token :: rest) ids (length before)
                  = {| contextID := if testWord "context" token then hd EmptyString rest
                                    else contextID ids;
                       imodelID := if testWord "imodel" token then hd EmptyString rest
                                   else imodelID ids |}).
  { unfold findPathIds_turn. rewrite nth_middle.
    rewrite app_nth2 by lia.
    replace (length before + 1 - length before) with 1 by lia.
    destruct rest; reflexivity. }
  rewrite Hturn.
  replace (before ++ token :: rest) with ((before ++ [token]) ++ rest)
    by (rewrite <- app_assoc; reflexivity).
  replace (S (length before)) with (length (before ++ [token]))
    by (rewrite length_app; cbn; lia).
  apply IH.
Qed.

Lemma findPathIds_is_scan (path : string) :
  findPathIds path
  = scanTokens (split "/" path) {| contextID := EmptyString; imodelID := EmptyString |}.
Proof. unfold findPathIds. exact (findPathIds_loop_is_scan (split "/" path) [] _). Qed.

Lemma scan_without_context (tokens : list string) :
  forall ids,
    forallb (fun t => negb (testWord "context" t)) tokens = true ->
    contextID (scanTokens tokens ids) = contextID ids.
Proof.
  induction tokens as [| t rest IH]; intros ids Hplain; [reflexivity |].
  cbn in Hplain. apply andb_prop in Hplain as [Ht Hrest].
  cbn [scanTokens]. rewrite (IH _ Hrest). cbn.
  destruct (testWord "context" t); [discriminate Ht | reflexivity].
Qed.

Lemma scan_without_imodel (tokens : list string) :
  forall ids,
    forallb (fun t => negb (testWord "imodel" t)) tokens = true ->
    imodelID (scanTokens tokens ids) = imodelID ids.
Proof.
  induction tokens as [| t rest IH]; intros ids Hplain; [reflexivity |].
  cbn in Hplain. apply andb_prop in Hplain as [Ht Hrest].
  cbn [scanTokens]. rewrite (IH _ Hrest). cbn.
  destruct (testWord "imodel" t); [discriminate Ht | reflexivity].
Qed.

Lemma scan_last_context (before : list string) (word : string) (after : list string) :
  forall ids,
    testWord "context" word = true ->
    forallb (fun t => negb (testWord "context" t)) after = true ->
    contextID (scanTokens (before ++ word :: after) ids) = hd EmptyString after.
Proof.
  induction before as [| t before IH]; intros ids Hword Hafter.
  - cbn [app scanTokens]. rewrite (scan_without_context _ _ Hafter). cbn.
    rewrite Hword. reflexivity.
  - cbn [app scanTokens]. apply IH; assumption.
Qed.

Lemma scan_last_imodel (before : list string) (word : string) (after : list string) :
  forall ids,
    testWord "imodel" word = true ->
    forallb (fun t => negb (testWord "imodel" t)) after = true ->
    imodelID (scanTokens (before ++ word :: after) ids) = hd EmptyString after.
Proof.
  induction before as [| t before IH]; intros ids Hword Hafter.
  - cbn [app scanTokens]. rewrite (scan_without_imodel _ _ Hafter). cbn.
    rewrite Hword. reflexivity.
  - cbn [app scanTokens]. apply IH; assumption.
Qed.

Lemma plain_not_context (tokens : list string) :
  forallb plainSegment tokens = true ->
  forallb (fun t => negb (testWord "context" t)) tokens = true.
Proof.
  induction tokens as [| t rest IH]; [reflexivity |]. cbn. unfold plainSegment at 1.
  intros H. apply andb_prop in H as [Ht Hrest]. apply andb_prop in Ht as [Hc _].
  rewrite Hc, (IH Hrest). reflexivity.
Qed.

Lemma plain_not_imodel (tokens : list string) :
  forallb plainSegment tokens = true ->
  forallb (fun t => negb (testWord "imodel" t)) tokens = true.
Proof.
  induction tokens as [| t rest IH]; [reflexivity |]. cbn. unfold plainSegment at 1.
  intros H. apply andb_prop in H as [Ht Hrest]. apply andb_prop in Ht as [_ Hi].
  rewrite Hi, (IH Hrest). reflexivity.
Qed.

Lemma imodel_word_is_not_context (word : string) :
  testWord "imodel" word = true -> testWord "context" word = false.
Proof.
  unfold testWord. intros H. apply String.eqb_eq in H. rewrite H. reflexivity.
Qed.

(** X25. A path written as [.../context/C/imodel/M/...] gives its two
    identifiers back: whatever the segments before and after, as long
    as no segment holds a ["/"] and the identifiers and the segments
    after them are not themselves one of the two words, [findPathIds]
    returns [C] and [M]; the two words are recognised in any letter
    case. *)
Theorem findPathIds_reads_both_identifiers
    (before after : list string) (contextWord imodelWord C M : string) :
  forallb slashFree (before ++ contextWord :: C :: imodelWord :: M :: after) = true ->
  testWord "context" contextWord = true ->
  testWord "imodel" imodelWord = true ->
  plainSegment C = true -> plainSegment M = true ->
  forallb plainSegment after = true ->
  findPathIds (joinPath (before ++ contextWord :: C :: imodelWord :: M :: after))
  = {| contextID := C; imodelID := M |}.
Proof.
  intros Hfree Hcw Hiw HC HM Hafter.
  pose proof (imodel_word_is_not_context _ Hiw) as Hiw'.
  rewrite findPathIds_is_scan, split_joinPath;
    [| destruct before; discriminate | exact Hfree].
  pose proof (plain_not_context _ Hafter) as Hac.
  pose proof (plain_not_imodel _ Hafter) as Hai.
  unfold plainSegment in HC, HM.
  apply andb_prop in HC as [HCc HCi]. apply andb_prop in HM as [HMc HMi].
  set (ids := {| contextID := EmptyString; imodelID := EmptyString |}).
  assert (Hc : contextID (scanTokens (before ++ contextWord :: C :: imodelWord :: M :: after) ids)
               = C).
  { rewrite scan_last_context; [reflexivity | exact Hcw |].
    cbn. rewrite HCc, Hiw', HMc, Hac. reflexivity. }
  assert (Hi : imodelID (scanTokens (before ++ contextWord :: C :: imodelWord :: M :: after) ids)
               = M).
  { replace (before ++ contextWord :: C :: imodelWord :: M :: after)
      with ((before ++ [contextWord; C]) ++ imodelWord :: M :: after)
      by (rewrite <- app_assoc; reflexivity).
    rewrite scan_last_imodel; [reflexivity | exact Hiw |].
    cbn. rewrite HMi, Hai. reflexivity. }
  destruct (scanTokens _ ids) as [c i]. cbn in Hc, Hi. subst. reflexivity.
Qed.

(** X26. A path none of whose segments is the word [context] or the word
    [imodel], the empty path among them, has no identifier: both come
    back empty. *)
Theorem findPathIds_without_the_words (path : string) :
  forallb plainSegment (split "/" path) = true ->
  findPathIds path = {| contextID := EmptyString; imodelID := EmptyString |}.
Proof.
  intros Hplain. rewrite findPathIds_is_scan.
  pose proof (scan_without_context _ {| contextID := EmptyString; imodelID := EmptyString |}
                (plain_not_context _ Hplain)) as Hc.
  pose proof (scan_without_imodel _ {| contextID := EmptyString; imodelID := EmptyString |}
                (plain_not_imodel _ Hplain)) as Hi.
  destruct (scanTokens _ _) as [c i]. cbn in Hc, Hi. subst. reflexivity.
Qed.

Lemma scan_ids_slashFree (tokens : list string) :
  forall ids,
    forallb slashFree tokens = true ->
    slashFree (contextID ids) = true -> slashFree (imodelID ids) = true ->
    slashFree (contextID (scanTokens tokens ids)) = true /\
    slashFree (imodelID (scanTokens tokens ids)) = true.
Proof.
  induction tokens as [| t rest IH]; intros ids Hfree Hc Hi; [split; assumption |].
  cbn in Hfree. apply andb_prop in Hfree as [_ Hrest].
  cbn [scanTokens]. apply IH; [exact Hrest | |]; cbn.
  - destruct (testWord "context" t); [| exact Hc].
    destruct rest as [| next rest']; [reflexivity |].
    cbn in Hrest. apply andb_prop in Hrest as [Hnext _]. exact Hnext.
  - destruct (testWord "imodel" t); [| exact Hi].
    destruct rest as [| next rest']; [reflexivity |].
    cbn in Hrest. apply andb_prop in Hrest as [Hnext _]. exact Hnext.
Qed.

(** X27. Whatever the path, neither identifier that [findPathIds] returns
    holds a ["/"]: an identifier is one segment at most. *)
Theorem findPathIds_identifiers_are_segments (path : string) :
  slashFree (contextID (findPathIds path)) = true /\
  slashFree (imodelID (findPathIds path)) = true.
Proof.
  rewrite findPathIds_is_scan.
  apply scan_ids_slashFree; [apply split_slashFree | reflexivity | reflexivity].
Qed.

(** X28. The last occurrence of a word decides, also when nothing
    follows it: a path that ends with the word [context] has an empty
    context identifier, whatever identifier an earlier [context] segment
    introduced. *)
Theorem findPathIds_trailing_word_resets (before : list string) (contextWord : string) :
  forallb slashFree (before ++ [contextWord]) = true ->
  testWord "context" contextWord = true ->
  contextID (findPathIds (joinPath (before ++ [contextWord]))) = EmptyString.
Proof.
  intros Hfree Hcw.
  rewrite findPathIds_is_scan, split_joinPath;
    [| destruct before; discriminate | exact Hfree].
  rewrite scan_last_context; [reflexivity | exact Hcw | reflexivity].
Qed.

(* ------------------------------------------------------------------ *)
(** ** These theorems at concrete inputs *)

Lemma compile_result_is_the_status_witness :
  _status (fst (snd (ShaderProgram_compile true acceptingDriver
                       (litProgram (Some 0), contextOfOne)))) = Success.
Proof.
  exact (@compile_result_is_the_status true acceptingDriver
           (litProgram (Some 0), contextOfOne)
           (snd (ShaderProgram_compile true acceptingDriver (litProgram (Some 0), contextOfOne)))
           true eq_refl).
Defined.

Lemma compile_throws_on_rejected_vertex_shader_witness :
  ShaderProgram_compile true strictDriver (brokenVertexProgram (Some 0), contextOfOne)
  = (Throw "Assert: Programmer Error",
     (brokenVertexProgram (Some 0), received (shaderCalls Vertex 1 "#error") contextOfOne)).
Proof.
  exact (@compile_throws_on_rejected_vertex_shader strictDriver (brokenVertexProgram (Some 0))
           contextOfOne 0 1 eq_refl eq_refl eq_refl eq_refl).
Defined.

Lemma compile_attempts_both_shaders_witness :
  exists added,
    calls (snd (snd (ShaderProgram_compile false strictDriver
                       (brokenVertexProgram (Some 0), contextOfOne))))
    = calls contextOfOne ++ added /\
    In (CreateShader Vertex) added /\ In (CreateShader Fragment) added.
Proof.
  exact (@compile_attempts_both_shaders strictDriver (brokenVertexProgram (Some 0))
           contextOfOne 0 eq_refl eq_refl).
Defined.

Lemma compile_true_has_linked_witness :
  exists g added,
    _glProgram (litProgram (Some 0)) = Some g /\
    calls (snd (snd (ShaderProgram_compile true acceptingDriver
                       (litProgram (Some 0), contextOfOne))))
    = calls contextOfOne ++ added /\
    In (CreateShader Vertex) added /\ In (CreateShader Fragment) added /\
    In (LinkProgram g) added /\
    last added = Some (GetProgramParameter g).
Proof.
  exact (@compile_true_has_linked true acceptingDriver (litProgram (Some 0)) contextOfOne
           (snd (ShaderProgram_compile true acceptingDriver (litProgram (Some 0), contextOfOne)))
           eq_refl eq_refl).
Defined.

Lemma compile_without_vertex_shader_witness :
  exists gl' added,
    ShaderProgram_compile false noVertexDriver (litProgram (Some 0), contextOfOne)
    = (Normal false, (set_status Failure (litProgram (Some 0)), gl')) /\
    calls gl' = calls contextOfOne ++ added /\
    In (CreateShader Fragment) added /\
    forallb (fun c => negb (is_link c)) added = true.
Proof.
  exact (@compile_without_vertex_shader noVertexDriver (litProgram (Some 0)) contextOfOne 0
           eq_refl eq_refl eq_refl).
Defined.

Lemma dispose_releases_once_witness :
  let disposed := set_status Uncompiled (set_glProgram None (readyProgram false)) in
  _glProgram disposed = None /\
  received [DeleteProgram 0] contextOfOne = received [DeleteProgram 0] contextOfOne /\
  forall gl2, ShaderProgram_dispose true (disposed, gl2) = (Normal tt, (disposed, gl2)).
Proof.
  exact (@dispose_releases_once true (readyProgram false)
           (set_status Uncompiled (set_glProgram None (readyProgram false)))
           contextOfOne (received [DeleteProgram 0] contextOfOne) eq_refl).
Defined.

Lemma dispose_of_program_in_use_witness :
  ShaderProgram_dispose true (readyProgram true, contextOfActive)
  = (Throw "Assert: Programmer Error", (readyProgram true, contextOfActive)) /\
  ShaderProgram_dispose false (readyProgram true, contextOfActive)
  = (Normal tt,
     (set_status Uncompiled (set_glProgram None (readyProgram true)),
      received [DeleteProgram 0] contextOfActive)) /\
  _inUse (set_status Uncompiled (set_glProgram None (readyProgram true))) = true.
Proof.
  exact (@dispose_of_program_in_use (readyProgram true) contextOfActive 0 eq_refl eq_refl).
Defined.

Lemma use_activates_program_without_program_uniforms_witness :
  let compiled := snd (ShaderProgram_compile true acceptingDriver
                         (unlitProgram (Some 1), contextOfTwo)) in
  ShaderProgram_use true acceptingDriver passParams (unlitProgram (Some 1), contextOfTwo)
  = (Normal true,
     (set_inUse true (fst compiled),
      {| calls := calls (snd compiled) ++ [UseProgram (Some 1)]; currentProgram := Some 1 |})).
Proof.
  exact (@use_activates_program_without_program_uniforms true acceptingDriver passParams
           (unlitProgram (Some 1))
           (fst (snd (ShaderProgram_compile true acceptingDriver
                        (unlitProgram (Some 1), contextOfTwo))))
           contextOfTwo
           (snd (snd (ShaderProgram_compile true acceptingDriver
                        (unlitProgram (Some 1), contextOfTwo))))
           1 eq_refl eq_refl eq_refl eq_refl).
Defined.

Lemma strict_alternation_in_debug_witness :
  ShaderProgram_use true acceptingDriver passParams (readyProgram true, contextOfActive)
  = (Throw "Assert: Programmer Error", (readyProgram true, contextOfActive)) /\
  ShaderProgram_endUse true (readyProgram false, contextOfOne)
  = (Throw "Assert: Programmer Error", (readyProgram false, contextOfOne)).
Proof.
  split.
  - apply (proj1 (@strict_alternation_in_debug acceptingDriver passParams (readyProgram true)
                    contextOfActive)); [reflexivity | discriminate | reflexivity].
  - apply (proj2 (@strict_alternation_in_debug acceptingDriver passParams (readyProgram false)
                    contextOfOne)). reflexivity.
Defined.

Lemma endUse_after_use_witness :
  let used := snd (ShaderProgram_use true acceptingDriver passParams
                     (unlitProgram (Some 1), contextOfTwo)) in
  _inUse (fst used) = true /\
  _status (fst used) = Success /\
  ShaderProgram_endUse true used
  = (Normal tt,
     (set_inUse false (fst used),
      {| calls := calls (snd used) ++ [UseProgram None]; currentProgram := None |})).
Proof.
  exact (@endUse_after_use true acceptingDriver passParams
           (unlitProgram (Some 1), contextOfTwo)
           (fst (snd (ShaderProgram_use true acceptingDriver passParams
                        (unlitProgram (Some 1), contextOfTwo))))
           (snd (snd (ShaderProgram_use true acceptingDriver passParams
                        (unlitProgram (Some 1), contextOfTwo))))
           eq_refl).
Defined.

Lemma registrations_append_in_order_witness :
  forEach [("u_near"%string, 7); ("u_far"%string, 8)]
    (fun r => ShaderProgram_addGraphicUniform true (fst r) (snd r))
    (unlitProgram (Some 1), contextOfTwo)
  = (Normal tt,
     (set_graphicUniforms
        (_graphicUniforms (unlitProgram (Some 1))
         ++ map newGraphicUniform [("u_near"%string, 7); ("u_far"%string, 8)])
        (unlitProgram (Some 1)),
      contextOfTwo)).
Proof.
  exact (proj1 (proj2 (@registrations_append_in_order true (unlitProgram (Some 1)) contextOfTwo
                         [] [("u_near"%string, 7); ("u_far"%string, 8)] [] eq_refl))).
Defined.

Lemma registration_refused_after_compile_witness :
  ShaderProgram_addGraphicUniform true "u_late" 9 (readyProgram false, contextOfOne)
  = (Throw "Assert: Programmer Error", (readyProgram false, contextOfOne)).
Proof.
  apply (@registration_refused_after_compile (readyProgram false) contextOfOne "u_late" 9).
  discriminate.
Defined.

Lemma uniform_is_bound_with_its_resolved_handle_witness :
  let u := {| u_name := "u_proj"; u_handle := None |} in
  let resolved := {| u_name := "u_proj"; u_handle := Some 1 |} in
  let gl' := received [GetUniformLocation 0 "u_proj"] contextOfOne in
  Uniform_compile true acceptingDriver (readyProgram false) (u, contextOfOne)
  = (Normal true, (resolved, gl')) /\
  ProgramUniform_bind {| pu_uniform := resolved; pu_bind := 7 |} passParams gl'
  = (Normal JsUndefined, received [CallBindProgramUniform 7 1 passParams] gl').
Proof.
  exact (@uniform_is_bound_with_its_resolved_handle true acceptingDriver (readyProgram false) 0
           {| u_name := "u_proj"; u_handle := None |} contextOfOne 7 passParams
           eq_refl eq_refl).
Defined.

Lemma attribute_is_bound_with_its_resolved_handle_witness :
  let a := {| at_name := "a_pos"; at_handle := None; at_bind := 3 |} in
  let resolved := {| at_name := "a_pos"; at_handle := Some 1; at_bind := 3 |} in
  let gl' := received [GetAttribLocation 0 "a_pos"] contextOfOne in
  Attribute_compile true acceptingDriver (readyProgram false) (a, contextOfOne)
  = (Normal true, (resolved, gl')) /\
  Attribute_bind resolved primitive gl'
  = (Normal tt, received [CallBindAttribute 3 1 primitive] gl').
Proof.
  exact (@attribute_is_bound_with_its_resolved_handle true acceptingDriver (readyProgram false) 0
           {| at_name := "a_pos"; at_handle := None; at_bind := 3 |} contextOfOne primitive
           eq_refl eq_refl).
Defined.

Lemma uniform_compile_on_resolved_uniform_witness :
  let u := {| u_name := "u_proj"; u_handle := Some 4 |} in
  Uniform_compile true acceptingDriver (readyProgram false) (u, contextOfOne)
  = (Throw "Assert: Programmer Error", (u, contextOfOne)) /\
  snd (Uniform_compile false acceptingDriver (readyProgram false) (u, contextOfOne))
  = ({| u_name := "u_proj"; u_handle := Some 1 |},
     received [GetUniformLocation 0 "u_proj"] contextOfOne).
Proof.
  exact (@uniform_compile_on_resolved_uniform acceptingDriver (readyProgram false) 0
           {| u_name := "u_proj"; u_handle := Some 4 |} 4 contextOfOne eq_refl eq_refl).
Defined.

Lemma descriptor_compile_without_device_object_witness :
  let u := {| u_name := "u_proj"; u_handle := None |} in
  let a := {| at_name := "a_pos"; at_handle := None; at_bind := 3 |} in
  Uniform_compile true acceptingDriver (litProgram None) (u, contextOfOne)
  = (Normal false, (u, contextOfOne)) /\
  Attribute_compile true acceptingDriver (litProgram None) (a, contextOfOne)
  = (Normal false, (a, contextOfOne)).
Proof.
  exact (@descriptor_compile_without_device_object true acceptingDriver (litProgram None)
           {| u_name := "u_proj"; u_handle := None |}
           {| at_name := "a_pos"; at_handle := None; at_bind := 3 |} contextOfOne
           eq_refl eq_refl eq_refl).
Defined.

Lemma changeProgram_switches_witness :
  ShaderProgramExecutor_changeProgram true acceptingDriver (Some 2) (busyExecutor, switchStore)
  = (Normal true,
     (set_program (Some 2) busyExecutor,
      {| heap := <[2 := set_inUse true (set_status Success (unlitProgram (Some 1)))]>
                   (<[1 := set_inUse false (readyProgram true)]> (heap switchStore));
         context := {| calls := (calls contextOfActive ++ [UseProgram None])
                                ++ [UseProgram (Some 1)];
                       currentProgram := Some 1 |} |})).
Proof.
  apply (@changeProgram_switches true acceptingDriver busyExecutor switchStore 1 2
           (readyProgram true) (set_status Success (unlitProgram (Some 1))) 1);
    first [reflexivity | discriminate].
Defined.

Lemma changeProgram_to_failed_program_witness :
  ShaderProgramExecutor_changeProgram true acceptingDriver (Some 2) (busyExecutor, failedStore)
  = (Normal false,
     (set_program None busyExecutor,
      {| heap := <[1 := set_inUse false (readyProgram true)]> (heap failedStore);
         context := {| calls := calls contextOfActive ++ [UseProgram None];
                       currentProgram := None |} |})).
Proof.
  apply (@changeProgram_to_failed_program true acceptingDriver busyExecutor failedStore 1 2
           (readyProgram true) (set_status Failure (brokenProgram (Some 1))));
    first [reflexivity | discriminate].
Defined.

Lemma changeProgram_result_is_what_is_held_witness :
  _program (fst (snd (ShaderProgramExecutor_changeProgram true acceptingDriver (Some 2)
                        (busyExecutor, failedStore)))) = None.
Proof.
  apply (@changeProgram_result_is_what_is_held true acceptingDriver (Some 2)
           (busyExecutor, failedStore)
           (snd (ShaderProgramExecutor_changeProgram true acceptingDriver (Some 2)
                   (busyExecutor, failedStore)))
           false).
  vm_compute. reflexivity.
Defined.

Lemma executor_draw_without_program_witness :
  ShaderProgramExecutor_draw true primitive (idleExecutor, oneReady)
  = (Throw "Assert: Programmer Error", (idleExecutor, oneReady)) /\
  ShaderProgramExecutor_draw false primitive (idleExecutor, oneReady)
  = (Normal tt, (idleExecutor, oneReady)).
Proof.
  exact (@executor_draw_without_program primitive idleExecutor oneReady eq_refl).
Defined.

Lemma executor_draw_delegates_witness :
  ShaderProgramExecutor_draw true primitive (busyExecutor, switchStore)
  = (Normal tt,
     (busyExecutor,
      {| heap := heap switchStore;
         context := received [CallBindGraphicUniform 2 4 primitive;
                              CallBindAttribute 3 6 primitive] contextOfActive |})).
Proof.
  apply (@executor_draw_delegates true primitive busyExecutor switchStore 1 (readyProgram true));
    reflexivity.
Defined.

Lemma findPathIds_reads_both_identifiers_witness :
  findPathIds "/imodeljs/v1/Context/a1b2/iModel/c3d4/changeset/0"
  = {| contextID := "a1b2"; imodelID := "c3d4" |}.
Proof.
  exact (@findPathIds_reads_both_identifiers [""%string; "imodeljs"%string; "v1"%string]
           ["changeset"%string; "0"%string] "Context" "iModel" "a1b2" "c3d4"
           eq_refl eq_refl eq_refl eq_refl eq_refl eq_refl).
Defined.

Lemma findPathIds_without_the_words_witness :
  findPathIds "/imodeljs/v1/ping" = {| contextID := ""; imodelID := "" |}.
Proof.
  exact (@findPathIds_without_the_words "/imodeljs/v1/ping" eq_refl).
Defined.

Lemma findPathIds_trailing_word_resets_witness :
  contextID (findPathIds "v1/context/a1b2/CONTEXT") = EmptyString.
Proof.
  exact (@findPathIds_trailing_word_resets
           ["v1"%string; "context"%string; "a1b2"%string] "CONTEXT" eq_refl eq_refl).
Defined.

Lemma twoPlain_quiet : quiet twoPlain.
Proof.
  split; [| reflexivity]. intros r p Hr. unfold twoPlain in Hr. cbn [heap] in Hr.
  apply lookup_insert_Some in Hr as [[_ <-] | [_ Hr]]; [reflexivity |].
  apply lookup_insert_Some in Hr as [[_ <-] | [_ Hr]]; [reflexivity |].
  rewrite lookup_empty in Hr. discriminate Hr.
Qed.

Lemma twoPlain_noProgramUniforms : noProgramUniforms twoPlain.
Proof.
  intros r p Hr. unfold twoPlain in Hr. cbn [heap] in Hr.
  apply lookup_insert_Some in Hr as [[_ <-] | [_ Hr]]; [reflexivity |].
  apply lookup_insert_Some in Hr as [[_ <-] | [_ Hr]]; [reflexivity |].
  rewrite lookup_empty in Hr. discriminate Hr.
Qed.

Lemma executor_scope_without_program_uniforms_witness :
  let constructed :=
    snd (ShaderProgramExecutor_new true acceptingDriver 0 0 (Some 1) twoPlain) in
  let s :=
    snd (runCalls true acceptingDriver singleTechniqueId singleShader 0
           [CallSetProgram 2; CallDraw primitive; CallDrawInterrupt primitive] constructed) in
  let disposed := ShaderProgramExecutor_dispose true acceptingDriver s in
  inUseAt (snd constructed) 1 = Some true /\
  inUseAt (snd s) 1 = Some true /\
  inUseAt (snd s) 2 = Some false /\
  atMostOneInUse (snd constructed) /\
  atMostOneInUse (snd s) /\
  fst disposed = Normal tt /\
  quiet (snd (snd disposed)).
Proof.
  cbv zeta.
  destruct (@executor_scope_without_program_uniforms true acceptingDriver singleTechniqueId
              singleShader 0 0 0 (Some 1) twoPlain
              [CallSetProgram 2; CallDraw primitive; CallDrawInterrupt primitive]
              twoPlain_quiet twoPlain_noProgramUniforms) as (Hconstructed & Hs & Hdisposed).
  split; [vm_compute; reflexivity |]. split; [vm_compute; reflexivity |].
  split; [vm_compute; reflexivity |].
  split; [exact Hconstructed |]. split; [exact Hs |].
  split; [vm_compute; reflexivity |].
  apply Hdisposed. vm_compute. reflexivity.
Defined.

(** The lit program is an object that exists: its constructor and three
    registrations produce it. *)
Lemma litProgram_reachable : reachable true acceptingDriver (litProgram (Some 0)).
Proof.
  change (litProgram (Some 0))
    with (fst (snd (invoke true acceptingDriver (CallAddAttribute "a_pos" 3)
           (fst (snd (invoke true acceptingDriver (CallAddGraphicUniform "u_color" 2)
             (fst (snd (invoke true acceptingDriver (CallAddProgramUniform "u_proj" 1)
               (set_attributes [] (set_graphicUniforms [] (set_programUniforms []
                  (litProgram (Some 0)))), contextOfOne))), contextOfOne))), contextOfOne)))).
  do 3 apply reachable_invoke.
  apply (@reachable_new true acceptingDriver
           "void main() { gl_Position = u_proj * a_pos; }"
           "void main() { gl_FragColor = u_color; }" "lit" freshContext contextOfOne).
  reflexivity.
Qed.

Lemma reachable_wellFormed_witness :
  let compiled :=
    fst (snd (invoke true acceptingDriver CallCompile (litProgram (Some 0), contextOfOne))) in
  _status compiled = Success /\
  _glProgram compiled = Some 0 /\
  wellFormed compiled.
Proof.
  cbv zeta. split; [reflexivity |]. split; [reflexivity |].
  apply (@reachable_wellFormed true acceptingDriver).
  apply reachable_invoke. exact litProgram_reachable.
Defined.

(* ------------------------------------------------------------------ *)
(** ** Where idempotence of [compile] stops *)

(** In a debug build, on the program whose vertex source the strict
    driver rejects, the first [compile] throws without returning a
    boolean and leaves the status [Uncompiled]; the second call compiles
    the vertex shader again, so the context has received further
    calls. *)
Lemma compile_is_not_idempotent_after_a_throw :
  let s := (brokenVertexProgram (Some 0), contextOfOne) in
  let first := ShaderProgram_compile true strictDriver s in
  let second := ShaderProgram_compile true strictDriver (snd first) in
  ~ compileIsIdempotentAt true strictDriver s /\
  fst first = Throw "Assert: Programmer Error" /\
  _status (fst (snd first)) = Uncompiled /\
  length (calls (snd (snd first))) = 5 /\
  length (calls (snd (snd second))) = 9.
Proof.
  cbv zeta. split.
  - intros Hclaim. destruct (Hclaim 1) as (b & Hfirst & _).
    vm_compute in Hfirst. discriminate Hfirst.
  - vm_compute. repeat split.
Qed.

(* ------------------------------------------------------------------ *)
(** ** Descriptors stay unresolved *)

Section UnresolvedDescriptors.

Variable assertionsEnabled : bool.
Variable driver : Driver.


















(** *** The store *)








Section Interrupt.

Variable getTechniqueId : Geometry -> Target -> TechniqueId.
Variable getShader : Target -> TechniqueId -> TechniqueFlags -> ProgramRef.
Variable TechniqueFlags_defaults : TechniqueFlags.


End Interrupt.

End UnresolvedDescriptors.





